(** * Captive-portal soft-AP stack: DHCP, DNS, HTTP and supervisor

    A shallow embedding of the C sources of the access-point firmware
    (dhcpserver.c, dnsserver.c, network_manager.c, alarm_control.c,
    Atividade_08.c) together with the properties of the design document
    that were checked against them.

    Conventions.
    - A byte is a [Z] in [0, 256); a buffer is a [list Z] indexed by [nat].
      Fixed-width C integers are [Z] with the wrap-around written out.
    - The target is the RP2040 / CYW43 (pico/cyw43_arch.h), a little-endian
      Cortex-M0+: a [uint32_t] read from, or copied to, memory uses the
      little-endian byte order, and lwIP's [lwip_htonl]/[lwip_htons] swap
      bytes.
    - Each callback is a function from its inputs (the received bytes, the
      clock reading, what the C stack held in an uninitialised local) and
      the module state to the new state and the actions requested from the
      TCP/IP stack. *)

From Stdlib Require Import ZArith Lia Ascii String.
From stdpp Require Import list strings.

Open Scope Z_scope.

(** ** Bytes, words and buffers *)

Definition is_byte (b : Z) : Prop := 0 <= b < 256.

(** [(uint8_t) v] *)
Definition u8 (v : Z) : Z := Z.land v 255.
(** [(uint16_t) v] and [(uint32_t) v] *)
Definition u16 (v : Z) : Z := v mod 65536.
Definition u32 (v : Z) : Z := v mod 4294967296.
(** [(int16_t) v] and [(int32_t) v] on a two's complement machine *)
Definition s16 (v : Z) : Z :=
  let w := u16 v in if w <? 32768 then w else w - 65536.
Definition s32 (v : Z) : Z :=
  let w := u32 v in if w <? 2147483648 then w else w - 4294967296.

(** [buf[i]]; a read past the modelled memory yields 0. *)
Definition rd (m : list Z) (i : nat) : Z := nth i m 0.

(** [buf[i] = v] *)
Definition poke (m : list Z) (i : nat) (v : Z) : list Z := <[i:=v]> m.

(** [memcpy(buf + i, vs, length vs)] *)
Definition store (m : list Z) (i : nat) (vs : list Z) : list Z :=
  list_inserts i vs m.

(** [pbuf_copy_partial(p, buf, n, 0)]: the first [n] bytes of the datagram,
    or all of it when it is shorter, land at the start of [buf]. *)
Definition pbuf_copy_partial (buf pkt : list Z) (n : nat) : list Z :=
  store buf 0 (take n pkt).

(** A local array of [n] bytes is not initialised by C: it starts as
    whatever the stack held, [frame], here cut or zero-extended to [n]. *)
Definition stack_image (n : nat) (frame : list Z) : list Z :=
  take n (frame ++ replicate n 0).

(** The bytes in memory of a [uint32_t] and the value of a [uint16_t]
    whose two bytes in memory are [bs] (little-endian host). *)
Definition le32_bytes (v : Z) : list Z :=
  [u8 v; u8 (Z.shiftr v 8); u8 (Z.shiftr v 16); u8 (Z.shiftr v 24)].

Definition le16 (bs : list Z) : Z := Z.lor (rd bs 0) (Z.shiftl (rd bs 1) 8).

Definition le16_bytes (v : Z) : list Z := [u8 v; u8 (Z.shiftr v 8)].

(** lwIP byte-order helpers on a little-endian host. *)
Definition lwip_htonl (v : Z) : Z :=
  Z.lor (Z.shiftl (u8 v) 24)
    (Z.lor (Z.shiftl (u8 (Z.shiftr v 8)) 16)
       (Z.lor (Z.shiftl (u8 (Z.shiftr v 16)) 8) (u8 (Z.shiftr v 24)))).

Definition lwip_htons (v : Z) : Z :=
  Z.lor (Z.shiftl (u8 v) 8) (u8 (Z.shiftr v 8)).

Definition lwip_ntohs (v : Z) : Z := lwip_htons v.

(** lwIP's [ip4_addr_t] holds one [u32_t addr] whose bytes in memory are the
    octets of the address in network order. [IP4_ADDR(&ip, a, b, c, d)]
    sets it to [PP_HTONL(LWIP_MAKEU32(a, b, c, d))]; [ip_octets] reads the
    octets back from memory. *)
Definition IP4_ADDR (a b c d : Z) : Z :=
  lwip_htonl
    (Z.lor (Z.lor (Z.lor (Z.shiftl a 24) (Z.shiftl b 16)) (Z.shiftl c 8)) d).

Definition ip_octets (addr : Z) : list Z := le32_bytes addr.

(** A datagram handed to [udp_sendto]/[udp_sendto_if]. *)
Record datagram := mk_datagram {
  dst_ip : list Z;      (* the four octets a.b.c.d *)
  dst_port : Z;
  payload : list Z
}.

(** ** DHCP server (libs/dhcpserver/dhcpserver.c, dhcpserver.h) *)

Module Dhcp.

Definition DHCPDISCOVER : Z := 1.
Definition DHCPOFFER : Z := 2.
Definition DHCPREQUEST : Z := 3.
Definition DHCPACK : Z := 5.

Definition DHCP_OPT_PAD : Z := 0.
Definition DHCP_OPT_SUBNET_MASK : Z := 1.
Definition DHCP_OPT_ROUTER : Z := 3.
Definition DHCP_OPT_DNS : Z := 6.
Definition DHCP_OPT_IP_LEASE_TIME : Z := 51.
Definition DHCP_OPT_MSG_TYPE : Z := 53.
Definition DHCP_OPT_SERVER_ID : Z := 54.
Definition DHCP_OPT_END : Z := 255.

Definition PORT_DHCP_CLIENT : Z := 68.
Definition DEFAULT_LEASE_TIME_S : Z := 24 * 60 * 60.
Definition MAC_LEN : nat := 6.
Definition DHCPS_BASE_IP : Z := 16.
Definition DHCPS_MAX_IP : nat := 8.

(** Offsets of the fields of [dhcp_msg_t] (no padding: every field is
    naturally aligned). *)
Definition off_op : nat := 0.
Definition off_flags : nat := 10.
Definition off_ciaddr : nat := 12.
Definition off_yiaddr : nat := 16.
Definition off_siaddr : nat := 20.
Definition off_chaddr : nat := 28.
Definition off_options : nat := 236.
Definition sizeof_dhcp_msg : nat := 548.

Definition DHCP_FIXED_PART_SIZE : nat := off_options.
Definition DHCP_MIN_REQUIRED_SIZE : nat := DHCP_FIXED_PART_SIZE + 4.

(** [opt_find] and the test of its result read up to two bytes past the
    end of [dhcp_msg]; the modelled stack memory includes them. *)
Definition frame_size : nat := sizeof_dhcp_msg + 2.

Record dhcp_server_lease_t := mk_lease {
  mac : list Z;         (* uint8_t mac[6] *)
  expiry : Z            (* uint16_t *)
}.

Record dhcp_server_t := mk_server {
  ip : Z;               (* ip_addr_t: the [addr] word *)
  nm : Z;
  lease : list dhcp_server_lease_t   (* lease[DHCPS_MAX_IP] *)
}.

Definition zero_mac : list Z := replicate MAC_LEN 0.

(** [memcmp(a, b, MAC_LEN) == 0] *)
Definition mac_eqb (a b : list Z) : bool :=
  forallb (fun k => rd a k =? rd b k) (seq 0 MAC_LEN).

(** The inner loop [for (k...) if (mac[k] != 0) mac_is_null = false]. *)
Definition mac_is_null (a : list Z) : bool :=
  forallb (fun k => rd a k =? 0) (seq 0 MAC_LEN).

(** [opt_find]: [opt] is the offset of the option area in the message, the
    result the offset of the option found. The loop index grows by at
    least one per turn and stops at 308, so 308 turns are enough. *)
Fixpoint opt_find_loop (fuel : nat) (m : list Z) (opt : nat) (cmd : Z)
    (i : nat) : option nat :=
  match fuel with
  | O => None
  | S fuel' =>
      if (i <? 312 - 4)%nat && negb (rd m (opt + i) =? DHCP_OPT_END) then
        if rd m (opt + i) =? cmd then Some (opt + i)%nat
        else if rd m (opt + i) =? DHCP_OPT_PAD then
          opt_find_loop fuel' m opt cmd (i + 1)
        else
          opt_find_loop fuel' m opt cmd
            (i + 2 + Z.to_nat (rd m (opt + i + 1)))
      else None
  end.

Definition opt_find (m : list Z) (opt : nat) (cmd : Z) : option nat :=
  opt_find_loop (312 - 4) m opt cmd 0.

(** The option writers thread the message and the write pointer [*opt]. *)
Definition opt_write_n (s : list Z * nat) (cmd : Z) (n : nat)
    (data : list Z) : list Z * nat :=
  let '(m, o) := s in
  let m := poke m o cmd in
  let m := poke m (o + 1) (u8 (Z.of_nat n)) in
  let m := store m (o + 2) (take n data) in
  (m, (o + 2 + n)%nat).

Definition opt_write_u8 (s : list Z * nat) (cmd val : Z) : list Z * nat :=
  let '(m, o) := s in
  let m := poke m o cmd in
  let m := poke m (o + 1) 1 in
  let m := poke m (o + 2) val in
  (m, (o + 3)%nat).

Definition opt_write_u32 (s : list Z * nat) (cmd val : Z) : list Z * nat :=
  let '(m, o) := s in
  let m := poke m o cmd in
  let m := poke m (o + 1) 4 in
  let m := poke m (o + 2) (u8 (Z.shiftr val 24)) in
  let m := poke m (o + 3) (u8 (Z.shiftr val 16)) in
  let m := poke m (o + 4) (u8 (Z.shiftr val 8)) in
  let m := poke m (o + 5) (u8 val) in
  (m, (o + 6)%nat).

(** [ip4_addr_get_u32(ip_2_ip4(&d->ip))] *)
Definition ip4_addr_get_u32 (addr : Z) : Z := addr.

(** [dhcp_socket_sendto]: [IP4_ADDR] takes the destination octets from the
    32-bit value, most significant first. Whether the stack then accepts
    the datagram is outside the server. *)
Definition dhcp_socket_sendto (buf : list Z) (len : nat) (ip_dest_val : Z)
    (port : Z) : datagram :=
  let len := Z.to_nat (Z.min (Z.of_nat len) 65535) in
  {| dst_ip := [Z.land (Z.shiftr ip_dest_val 24) 255;
                Z.land (Z.shiftr ip_dest_val 16) 255;
                Z.land (Z.shiftr ip_dest_val 8) 255;
                Z.land (Z.shiftr ip_dest_val 0) 255];
     dst_port := port;
     payload := take len buf |}.

(** *** Validation of the inbound datagram

    Length, copy into the local [dhcp_msg], magic cookie, option 53 of
    length 1. The result is the message as it sits in memory and
    [extracted_msg_type]. *)
Definition dhcp_receive (frame pkt : list Z) : option (list Z * Z) :=
  if (length pkt <? DHCP_MIN_REQUIRED_SIZE)%nat then None
  else
    let m := pbuf_copy_partial (stack_image frame_size frame) pkt
               sizeof_dhcp_msg in
    if negb ((rd m (off_options + 0) =? 99) && (rd m (off_options + 1) =? 130)
             && (rd m (off_options + 2) =? 83) && (rd m (off_options + 3) =? 99))
    then None
    else
      match opt_find m (off_options + 4) DHCP_OPT_MSG_TYPE with
      | None => None
      | Some p =>
          if rd m (p + 1) =? 1 then Some (m, rd m (p + 2)) else None
      end.

Definition chaddr (m : list Z) : list Z := take MAC_LEN (drop off_chaddr m).

(** *** DHCPDISCOVER: one pass over the lease table

    [ctm] is [current_time_marker]. The pass returns the table (expired
    leases are cleared on the way), [yi_idx] and [best_free_idx]. *)
Definition lease_expired_discover (ctm : Z) (l : dhcp_server_lease_t) : bool :=
  (0 <? s16 (u32 (ctm - expiry l))) && negb (expiry l =? 0).

Fixpoint discover_scan (ctm : Z) (ch : list Z) (ls : list dhcp_server_lease_t)
    (i : nat) (best : option nat)
    : list dhcp_server_lease_t * option nat * option nat :=
  match ls with
  | [] => ([], None, best)
  | l :: rest =>
      if mac_eqb (mac l) ch then (l :: rest, Some i, best)
      else if mac_is_null (mac l) then
        let best := match best with None => Some i | Some _ => best end in
        let '(rest', yi, best') := discover_scan ctm ch rest (S i) best in
        (l :: rest', yi, best')
      else if lease_expired_discover ctm l then
        let best := match best with None => Some i | Some _ => best end in
        let '(rest', yi, best') := discover_scan ctm ch rest (S i) best in
        ({| mac := zero_mac; expiry := 0 |} :: rest', yi, best')
      else
        let '(rest', yi, best') := discover_scan ctm ch rest (S i) best in
        (l :: rest', yi, best')
  end.

(** *** DHCPREQUEST: the two searches *)

(** Both searches have the shape
    [for (i = 0; i < n; ++i) if (p(a[i])) { yi = i; break; }]. *)
Fixpoint first_index {A : Type} (p : A -> bool) (l : list A) (i : nat)
    : option nat :=
  match l with
  | [] => None
  | x :: rest => if p x then Some i else first_index p rest (S i)
  end.

(** Step 1: the first slot whose MAC is the client's. *)
Definition request_find_mac (ch : list Z) (ls : list dhcp_server_lease_t)
    : option nat :=
  first_index (fun l => mac_eqb (mac l) ch) ls 0.

Definition lease_free_request (now : Z) (l : dhcp_server_lease_t) : bool :=
  let e := u32 (Z.lor (Z.shiftl (expiry l) 16) 65535) in
  mac_eqb (mac l) zero_mac || (s32 (e - u32 now) <? 0).

(** Step 2: the first free or expired slot. *)
Definition request_find_free (now : Z) (ls : list dhcp_server_lease_t)
    : option nat :=
  first_index (lease_free_request now) ls 0.

Definition set_mac (ch : list Z) (l : dhcp_server_lease_t) :=
  {| mac := ch; expiry := expiry l |}.

Definition set_expiry (e : Z) (l : dhcp_server_lease_t) :=
  {| mac := mac l; expiry := e |}.

Definition new_expiry (now : Z) : Z :=
  u16 (Z.shiftr (u32 (u32 now + DEFAULT_LEASE_TIME_S * 1000)) 16).

(** [memcpy(yiaddr, &ip_u32, 4); yiaddr[3] = (uint8_t)(DHCPS_BASE_IP + yi)] *)
Definition write_yiaddr (d : dhcp_server_t) (m : list Z) (yi : nat) : list Z :=
  let ip_u32 := ip4_addr_get_u32 (ip d) in
  let m := store m off_yiaddr (le32_bytes ip_u32) in
  poke m (off_yiaddr + 3) (u8 (DHCPS_BASE_IP + Z.of_nat yi)).

(** *** Options common to OFFER and ACK, destination, and the send *)
Definition dhcp_reply (d : dhcp_server_t) (s : list Z * nat)
    (extracted_msg_type : Z) : datagram :=
  let s := opt_write_u32 s DHCP_OPT_SERVER_ID (ip4_addr_get_u32 (ip d)) in
  let s := opt_write_n s DHCP_OPT_SUBNET_MASK 4
             (le32_bytes (ip4_addr_get_u32 (nm d))) in
  let s := opt_write_n s DHCP_OPT_ROUTER 4
             (le32_bytes (ip4_addr_get_u32 (ip d))) in
  let s := opt_write_n s DHCP_OPT_DNS 4
             (le32_bytes (ip4_addr_get_u32 (ip d))) in
  let s := opt_write_u32 s DHCP_OPT_IP_LEASE_TIME
             (lwip_htonl DEFAULT_LEASE_TIME_S) in
  let '(m, o) := s in
  let m := poke m o DHCP_OPT_END in
  let o := (o + 1)%nat in
  let dest_ip_val :=
    if extracted_msg_type =? DHCPACK then
      let flags := le16 (take 2 (drop off_flags m)) in
      let broadcast_flag := negb (Z.land flags (lwip_htons 32768) =? 0) in
      let ciaddr_is_zero :=
        Z.lor (Z.lor (Z.lor (rd m off_ciaddr) (rd m (off_ciaddr + 1)))
                 (rd m (off_ciaddr + 2))) (rd m (off_ciaddr + 3)) =? 0 in
      if negb broadcast_flag && ciaddr_is_zero then
        Z.lor (Z.lor (Z.lor (Z.shiftl (rd m off_yiaddr) 24)
                            (Z.shiftl (rd m (off_yiaddr + 1)) 16))
                     (Z.shiftl (rd m (off_yiaddr + 2)) 8))
              (rd m (off_yiaddr + 3))
      else 4294967295
    else 4294967295 in
  dhcp_socket_sendto m o dest_ip_val PORT_DHCP_CLIENT.

(** *** [dhcp_server_process]

    [now] is what [cyw43_hal_ticks_ms()] returns during the callback (a
    [uint32_t]; the callback runs to completion, and every read of the
    clock inside one call is taken to return the same value). The result is
    the server state after the call and the datagram sent, if any. *)
Definition dhcp_server_process (d : dhcp_server_t) (now : Z)
    (frame pkt : list Z) : dhcp_server_t * option datagram :=
  match dhcp_receive frame pkt with
  | None => (d, None)
  | Some (m, extracted_msg_type) =>
      let m := poke m off_op 2 in
      let m := store m off_siaddr (le32_bytes (ip d)) in
      let opt_ptr := (off_options + 4)%nat in
      if extracted_msg_type =? DHCPDISCOVER then
        let current_time_marker := Z.shiftr (u32 now) 16 in
        let '(ls, yi_idx, best_free_idx) :=
          discover_scan current_time_marker (chaddr m) (lease d) 0 None in
        let d := {| ip := ip d; nm := nm d; lease := ls |} in
        let yi_idx := match yi_idx with Some _ => yi_idx | None => best_free_idx end in
        match yi_idx with
        | None => (d, None)
        | Some yi =>
            let m := write_yiaddr d m yi in
            let s := opt_write_u8 (m, (off_options + 4)%nat)
                       DHCP_OPT_MSG_TYPE DHCPOFFER in
            let s := opt_write_u8 (fst s, (off_options + 4)%nat)
                       DHCP_OPT_MSG_TYPE DHCPOFFER in
            (d, Some (dhcp_reply d s extracted_msg_type))
        end
      else if extracted_msg_type =? DHCPREQUEST then
        let found :=
          match request_find_mac (chaddr m) (lease d) with
          | Some yi => Some (yi, lease d)
          | None =>
              match request_find_free now (lease d) with
              | Some yi =>
                  Some (yi, alter (set_mac (chaddr m)) yi (lease d))
              | None => None
              end
          end in
        match found with
        | None => (d, None)
        | Some (yi, ls) =>
            let ls := alter (set_expiry (new_expiry now)) yi ls in
            let d := {| ip := ip d; nm := nm d; lease := ls |} in
            let m := write_yiaddr d m yi in
            let s := opt_write_u8 (m, opt_ptr) DHCP_OPT_MSG_TYPE DHCPACK in
            (d, Some (dhcp_reply d s extracted_msg_type))
        end
      else (d, None)
  end.

(** [dhcp_server_init]: the addresses are stored and the table zeroed. *)
Definition dhcp_server_init (ip nm : Z) : dhcp_server_t :=
  {| ip := ip; nm := nm;
     lease := replicate DHCPS_MAX_IP {| mac := zero_mac; expiry := 0 |} |}.

End Dhcp.

(** ** DNS server (libs/dnsserver/dnsserver.c) *)

Module Dns.

Definition MAX_DNS_MSG_SIZE : nat := 300.

(** [sizeof(dns_header_t)] and the offsets of its fields. *)
Definition sizeof_dns_header : nat := 12.
Definition off_id : nat := 0.
Definition off_flags : nat := 2.
Definition off_question_count : nat := 4.
Definition off_answer_record_count : nat := 6.
Definition off_authority_record_count : nat := 8.
Definition off_additional_record_count : nat := 10.

Record dns_server_t := mk_dns { ip : Z }.

(** The [while (question_ptr < question_ptr_end)] loop that skips the
    labels of the question name. [None] is [goto ignore_request]. The
    pointer grows by at least one per turn, so [q_end - q] turns suffice;
    with no turn left the loop has ended and the pointer is returned. *)
Fixpoint skip_question_name (fuel : nat) (m : list Z) (q_end q : nat)
    : option nat :=
  match fuel with
  | O => Some q
  | S fuel' =>
      if (q <? q_end)%nat then
        if rd m q =? 0 then Some (q + 1)%nat
        else
          let label_len := rd m q in
          if 63 <? label_len then None
          else skip_question_name fuel' m q_end (q + 1 + Z.to_nat label_len)
      else Some q
  end.

(** [*answer_ptr++ = v] *)
Definition put (s : list Z * nat) (v : Z) : list Z * nat :=
  (poke (fst s) (snd s) v, (snd s + 1)%nat).

(** [dns_server_process]: [frame] is what the stack held where [dns_msg]
    is placed; the result is the datagram handed to [udp_sendto]. *)
Definition dns_server_process (d : dns_server_t) (frame pkt : list Z)
    (src_addr : list Z) (src_port : Z) : option datagram :=
  let dns_msg :=
    pbuf_copy_partial (stack_image MAX_DNS_MSG_SIZE frame) pkt
      MAX_DNS_MSG_SIZE in
  let msg_len := Nat.min (length pkt) MAX_DNS_MSG_SIZE in
  if (msg_len <? sizeof_dns_header)%nat then None
  else
    let flags := lwip_ntohs (le16 (take 2 (drop off_flags dns_msg))) in
    let question_count :=
      lwip_ntohs (le16 (take 2 (drop off_question_count dns_msg))) in
    if negb (Z.land (Z.shiftr flags 15) 1 =? 0) then None
    else if negb (Z.land (Z.shiftr flags 11) 15 =? 0) then None
    else if question_count <? 1 then None
    else
      let question_ptr_start := sizeof_dns_header in
      let question_ptr_end := msg_len in
      match skip_question_name MAX_DNS_MSG_SIZE dns_msg question_ptr_end
              question_ptr_start with
      | None => None
      | Some question_ptr =>
          if (255 <? question_ptr - question_ptr_start)%nat then None
          else
            let question_ptr := (question_ptr + 4)%nat in
            let s := (dns_msg, question_ptr) in
            let s := put s 192 in
            let s := put s (u8 (Z.of_nat question_ptr_start)) in
            let s := put s 0 in
            let s := put s 1 in
            let s := put s 0 in
            let s := put s 1 in
            let s := put s 0 in
            let s := put s 0 in
            let s := put s 0 in
            let s := put s 60 in
            let s := put s 0 in
            let s := put s 4 in
            let s := (store (fst s) (snd s) (le32_bytes (ip d)), (snd s + 4)%nat) in
            let '(m, answer_ptr) := s in
            let m := store m off_flags
                       (le16_bytes (lwip_htons
                          (Z.lor (Z.lor (Z.shiftl 1 15) (Z.shiftl 1 10))
                                 (Z.shiftl 1 7)))) in
            let m := store m off_question_count (le16_bytes (lwip_htons 1)) in
            let m := store m off_answer_record_count
                       (le16_bytes (lwip_htons 1)) in
            let m := store m off_authority_record_count (le16_bytes 0) in
            let m := store m off_additional_record_count (le16_bytes 0) in
            Some {| dst_ip := src_addr; dst_port := src_port;
                    payload := take answer_ptr m |}
      end.

(** [dns_server_init] stores the address used in the answers. *)
Definition dns_server_init (ip : Z) : dns_server_t := {| ip := ip |}.

End Dns.

(** ** C strings

    A C string is a [string]; the characters of a buffer up to its first
    NUL are its C string. *)

Definition NUL : ascii := "000"%char.
Definition LF : string := String "010"%char EmptyString.
Definition CR : string := String "013"%char EmptyString.
Definition dq : string := String "034"%char EmptyString.

Fixpoint cstr (buf : string) : string :=
  match buf with
  | EmptyString => EmptyString
  | String c rest =>
      if Ascii.eqb c NUL then EmptyString else String c (cstr rest)
  end.

Fixpoint string_take (n : nat) (s : string) : string :=
  match n, s with
  | S n', String c rest => String c (string_take n' rest)
  | _, _ => EmptyString
  end.

Fixpoint string_drop (n : nat) (s : string) : string :=
  match n, s with
  | S n', String _ rest => string_drop n' rest
  | _, _ => s
  end.

(** [strchr(s, c)]: the string from the first [c] on, if there is one. *)
Fixpoint strchr (s : string) (c : ascii) : option string :=
  match s with
  | EmptyString => None
  | String x rest => if Ascii.eqb x c then Some s else strchr rest c
  end.

(** What is left of [s] once the result of [strchr(s, c)] is set to NUL. *)
Fixpoint cut_at (s : string) (c : ascii) : string :=
  match s with
  | EmptyString => EmptyString
  | String x rest =>
      if Ascii.eqb x c then EmptyString else String x (cut_at rest c)
  end.

(** [printf("%d", n)] for [n >= 0]. *)
Fixpoint dec_digits (fuel n : nat) (acc : string) : string :=
  match fuel with
  | O => acc
  | S fuel' =>
      let acc := String (ascii_of_nat (48 + n mod 10)) acc in
      if (n / 10 =? 0)%nat then acc else dec_digits fuel' (n / 10) acc
  end.

Definition string_of_nat (n : nat) : string := dec_digits (S n) n EmptyString.

(** lwIP's [ipaddr_ntoa]: the four octets in dotted decimal. *)
Definition ipaddr_ntoa (addr : Z) : string :=
  string_of_nat (Z.to_nat (rd (ip_octets addr) 0)) +:+ "." +:+
  string_of_nat (Z.to_nat (rd (ip_octets addr) 1)) +:+ "." +:+
  string_of_nat (Z.to_nat (rd (ip_octets addr) 2)) +:+ "." +:+
  string_of_nat (Z.to_nat (rd (ip_octets addr) 3)).

(** ** Alarm control (src/alarm_control.c) *)

Module Alarm.

Definition LED_GREEN_GPIO : Z := 11.
Definition LED_BLUE_GPIO : Z := 12.
Definition LED_RED_GPIO : Z := 13.
Definition BUZZER_GPIO : Z := 10.
Definition ALARM_BLINK_INTERVAL_MS : Z := 500.

(** What the module does to the hardware: the OLED refresh and the GPIO
    writes. Console prints are not part of the model. *)
Inductive effect :=
  | OledUpdateStatus (is_alarm_active : bool)
  | GpioPut (gpio : Z) (value : bool).

(** The three static variables of the module. *)
Record alarm_state := mk_alarm {
  s_alarm_active : bool;
  s_alarm_output_toggle_state : bool;
  s_last_toggle_time_us : Z
}.

Definition alarm_initial : alarm_state :=
  {| s_alarm_active := false; s_alarm_output_toggle_state := false;
     s_last_toggle_time_us := 0 |}.

(** [alarm_control_set_active]; [now_us] is [time_us_64()]. *)
Definition alarm_control_set_active (now_us : Z) (active : bool)
    (s : alarm_state) : alarm_state * list effect :=
  if negb (Bool.eqb (s_alarm_active s) active) then
    if active then
      ({| s_alarm_active := true; s_alarm_output_toggle_state := false;
          s_last_toggle_time_us := now_us |},
       [OledUpdateStatus true; GpioPut LED_GREEN_GPIO false])
    else
      ({| s_alarm_active := false; s_alarm_output_toggle_state := false;
          s_last_toggle_time_us := s_last_toggle_time_us s |},
       [OledUpdateStatus false; GpioPut LED_RED_GPIO false;
        GpioPut BUZZER_GPIO false; GpioPut LED_GREEN_GPIO true])
  else (s, []).

Definition alarm_control_is_active (s : alarm_state) : bool :=
  s_alarm_active s.

(** [alarm_control_process], called from the main loop. *)
Definition alarm_control_process (now_us : Z) (s : alarm_state)
    : alarm_state * list effect :=
  if s_alarm_active s then
    if ALARM_BLINK_INTERVAL_MS * 1000 <=?
         (now_us - s_last_toggle_time_us s) mod 18446744073709551616 then
      let t := negb (s_alarm_output_toggle_state s) in
      ({| s_alarm_active := s_alarm_active s;
          s_alarm_output_toggle_state := t;
          s_last_toggle_time_us := now_us |},
       [GpioPut LED_RED_GPIO t; GpioPut BUZZER_GPIO t])
    else (s, [])
  else (s, []).

End Alarm.

(** ** HTTP server and page renderer (src/network_manager.c) *)

Module Http.

Import Alarm.

(** lwIP's [err_t] values used here (lwip/err.h). *)
Definition ERR_OK : Z := 0.
Definition ERR_ABRT : Z := -13.
Definition ERR_CLSD : Z := -15.

Definition HTTP_GET : string := "GET".

(** The format macros, as functions of their conversions. *)
Definition HTTP_RESPONSE_HEADERS (status content_length : nat) : string :=
  "HTTP/1.1 " +:+ string_of_nat status +:+ " OK" +:+ LF +:+
  "Content-Length: " +:+ string_of_nat content_length +:+ LF +:+
  "Content-Type: text/html; charset=utf-8" +:+ LF +:+
  "Connection: close" +:+ LF +:+ LF.

Definition HTTP_RESPONSE_REDIRECT_TO_ROOT (host : string) : string :=
  "HTTP/1.1 302 Redirect" +:+ LF +:+
  "Location: http://" +:+ host +:+ "/" +:+ LF +:+ LF.

Definition ALARM_PAGE_BODY (status_class_suffix current_status_str
    next_action_param button_class_suffix button_text : string) : string :=
  "<html><head><title>Controle de Alarme</title><meta name=" +:+ dq +:+ "viewport" +:+ dq +:+ " content=" +:+ dq +:+ "width=device-width, initial-scale=1.0" +:+ dq +:+ "></head>" +:+
  "<body><style>body{font-family: Arial, sans-serif; text-align: center; margin-top: 50px;} " +:+
  "h1{color: #333;} h2{color: #444; font-size: 1.2em; margin-top: 0px;} p{color: #555;} " +:+
  ".button {display: inline-block; padding: 15px 25px; font-size: 20px; cursor: pointer; " +:+
  "text-align: center; text-decoration: none; outline: none; color: #fff; " +:+
  "border: none; border-radius: 15px; box-shadow: 0 9px #999;} " +:+
  ".button-on {background-color: #4CAF50;} .button-on:hover {background-color: #3e8e41} " +:+
  ".button-off {background-color: #f44336;} .button-off:hover {background-color: #da190b} " +:+
  ".status {font-weight: bold; font-size: 22px;} " +:+
  ".status-on {color: #f44336;} .status-off {color: #4CAF50;}</style>" +:+
  "<h1>Simulador Portatil de Alarme</h1>" +:+
  "<h2>Atividade 08 - Manoel</h2>" +:+
  "<p>Estado do Alarme: <strong class=" +:+ dq +:+ "status status-" +:+ status_class_suffix +:+ dq +:+ ">" +:+ current_status_str +:+ "</strong></p>" +:+
  "<p><a href=" +:+ dq +:+ "/?alarm=" +:+ next_action_param +:+ dq +:+ " class=" +:+ dq +:+ "button button-" +:+ button_class_suffix +:+ dq +:+ ">" +:+ button_text +:+ " Alarme</a></p>" +:+
  "</body></html>".

(** [snprintf(buf, size, ...)]: the buffer receives at most [size - 1]
    characters, the value returned is the length of the whole text. *)
Definition snprintf (size : nat) (text : string) : string * Z :=
  (string_take (size - 1) text, Z.of_nat (String.length text)).

(** *** [sscanf(params, "alarm=%s", alarm_command_str)] *)

Definition isspace (c : ascii) : bool :=
  let n := nat_of_ascii c in
  (n =? 32)%nat || ((9 <=? n)%nat && (n <=? 13)%nat).

(** The ordinary characters of the format must be the next characters of
    the input; the result is the input left after them. *)
Fixpoint match_literal (lit s : string) : option string :=
  match lit with
  | EmptyString => Some s
  | String c lit' =>
      match s with
      | EmptyString => None
      | String x s' => if Ascii.eqb x c then match_literal lit' s' else None
      end
  end.

Fixpoint skip_space (s : string) : string :=
  match s with
  | EmptyString => EmptyString
  | String c rest => if isspace c then skip_space rest else s
  end.

(** The characters [%s] stores: the longest run without white space. *)
Fixpoint scan_word (s : string) : string :=
  match s with
  | EmptyString => EmptyString
  | String c rest =>
      if isspace c then EmptyString else String c (scan_word rest)
  end.

(** [Some w] when the call returns 1, with [w] the word stored. *)
Definition sscanf_alarm (params : string) : option string :=
  match match_literal "alarm=" params with
  | None => None
  | Some rest =>
      match skip_space rest with
      | EmptyString => None
      | String c rest' => Some (scan_word (String c rest'))
      end
  end.

(** [sizeof(alarm_command_str)] *)
Definition alarm_command_size : nat := 4.

(** [http_generate_page_content]. The alarm module state is threaded
    through; the result is the module state, the hardware effects, the
    content of [result] and the value returned. [%s] has no field width:
    a word that, with its NUL, does not fit [alarm_command_str] is
    written past the array, and the call has no defined result ([None]). *)
Definition http_generate_page_content (now_us : Z) (params : option string)
    (max_result_len : nat) (a : alarm_state)
    : option (alarm_state * list effect * string * Z) :=
  let command :=
    match params with
    | None => Some (a, [])
    | Some params =>
        match sscanf_alarm params with
        | None => Some (a, [])
        | Some alarm_command_str =>
            if (alarm_command_size <? String.length alarm_command_str + 1)%nat
            then None
            else if String.eqb alarm_command_str "on" then
              if negb (alarm_control_is_active a)
              then Some (alarm_control_set_active now_us true a)
              else Some (a, [])
            else if String.eqb alarm_command_str "off" then
              if alarm_control_is_active a
              then Some (alarm_control_set_active now_us false a)
              else Some (a, [])
            else Some (a, [])
        end
    end in
  match command with
  | None => None
  | Some (a, effects) =>
      let is_active := alarm_control_is_active a in
      let current_status_str := if is_active then "LIGADO" else "DESLIGADO" in
      let status_class_suffix := if is_active then "on" else "off" in
      let next_action_param := if is_active then "off" else "on" in
      let button_text := if is_active then "Desligar" else "Ligar" in
      let button_class_suffix := if is_active then "off" else "on" in
      let '(result, n) :=
        snprintf max_result_len
          (ALARM_PAGE_BODY status_class_suffix current_status_str
             next_action_param button_class_suffix button_text) in
      Some (a, effects, result, n)
  end.

(** *** Connection state and callbacks *)

Record TCP_CONNECT_STATE_T := mk_con {
  sent_len : Z;
  headers : string;       (* char headers[128], as a C string *)
  result : string;        (* char result[1500], as a C string *)
  header_len : Z;
  result_len : Z;
  gw : Z                  (* the gateway address [*gw] points to *)
}.

Definition sizeof_headers : nat := 128.
Definition sizeof_result : nat := 1500.

(** [calloc] in [tcp_server_accept]. *)
Definition con_state_new (gw : Z) : TCP_CONNECT_STATE_T :=
  {| sent_len := 0; headers := EmptyString; result := EmptyString;
     header_len := 0; result_len := 0; gw := gw |}.

(** Requests made to the TCP stack. [TcpClose] stands for the body of
    [tcp_close_client_connection]: the four callbacks and the argument are
    cleared, [tcp_close] is called and the connection state is freed. *)
Inductive tcp_action :=
  | TcpWrite (data : string)
  | TcpRecved (len : nat)
  | TcpClose
  | TcpAbort
  | PbufFree.

(** What the stack answers to the calls of one callback. *)
Record tcp_stack := mk_stack {
  write_headers_err : Z;
  write_body_err : Z;
  tcp_close_err : Z
}.

Definition tcp_close_client_connection (env : tcp_stack) (close_err : Z)
    : list tcp_action * Z :=
  if tcp_close_err env =? ERR_OK then ([TcpClose], close_err)
  else ([TcpClose; TcpAbort], ERR_ABRT).

(** The outcome of a callback: the connection state ([None] once freed),
    the alarm module state, the hardware effects, the requests to the
    stack in order, and the [err_t] returned. *)
Record outcome := mk_outcome {
  con : option TCP_CONNECT_STATE_T;
  alarm : alarm_state;
  effects : list effect;
  actions : list tcp_action;
  ret : Z
}.

Definition closing (env : tcp_stack) (a : alarm_state) (effs : list effect)
    (before : list tcp_action) (close_err : Z) : outcome :=
  let '(acts, r) := tcp_close_client_connection env close_err in
  {| con := None; alarm := a; effects := effs;
     actions := before ++ acts; ret := r |}.

(** [tcp_server_sent] *)
Definition tcp_server_sent (env : tcp_stack) (con_state : TCP_CONNECT_STATE_T)
    (a : alarm_state) (len : Z) : outcome :=
  let con_state :=
    {| sent_len := sent_len con_state + len; headers := headers con_state;
       result := result con_state; header_len := header_len con_state;
       result_len := result_len con_state; gw := gw con_state |} in
  if header_len con_state + result_len con_state <=? sent_len con_state
  then closing env a [] [] ERR_OK
  else {| con := Some con_state; alarm := a; effects := [];
          actions := []; ret := ERR_OK |}.

(** The loop that steps over the blanks after [GET]. *)
Fixpoint skip_blanks (s : string) : string :=
  match s with
  | String " " rest => skip_blanks rest
  | _ => s
  end.

(** The request line as [tcp_server_recv] takes it apart: the path and
    the parameters after ['?'], if any. [headers] is the buffer as a C
    string; [None] when it does not start with ["GET"]. *)
Definition parse_request (headers : string) : option (string * option string) :=
  if String.prefix HTTP_GET headers then
    let full_request_path_and_params :=
      skip_blanks (string_drop (String.length HTTP_GET) headers) in
    let full_request_path_and_params :=
      cut_at full_request_path_and_params " " in
    match strchr full_request_path_and_params "?" with
    | Some (String _ params) =>
        Some (cut_at full_request_path_and_params "?", Some params)
    | _ => Some (full_request_path_and_params, None)
    end
  else None.

(** [tcp_server_recv]; [p] is the received segment ([None] for the NULL
    pbuf of a closed connection) and [now_us] the clock of the alarm
    module. [None] when the page renderer has no defined result. *)
Definition tcp_server_recv (env : tcp_stack) (con_state : TCP_CONNECT_STATE_T)
    (a : alarm_state) (now_us : Z) (p : option string) : option outcome :=
  match p with
  | None => Some (closing env a [] [] ERR_OK)
  | Some data =>
      let tot_len := String.length data in
      if (0 <? tot_len)%nat then
        let copy_len := Nat.min tot_len (sizeof_headers - 1) in
        let headers := cstr (string_take copy_len data) in
        match parse_request headers with
        | Some (actual_path, params) =>
            let rendered :=
              if String.eqb actual_path "/" then
                match http_generate_page_content now_us params sizeof_result a with
                | None => None
                | Some (a, effs, result, result_len) =>
                    if Z.of_nat (sizeof_result - 1) <=? result_len
                    then Some (inl (closing env a effs [PbufFree] ERR_CLSD))
                    else
                      let '(headers, header_len) :=
                        snprintf sizeof_headers
                          (HTTP_RESPONSE_HEADERS 200 (Z.to_nat result_len)) in
                      Some (inr (a, effs, headers, header_len, result, result_len))
                end
              else
                let '(headers, header_len) :=
                  snprintf sizeof_headers
                    (HTTP_RESPONSE_REDIRECT_TO_ROOT (ipaddr_ntoa (gw con_state))) in
                Some (inr (a, [], headers, header_len, result con_state, 0))
            in
            match rendered with
            | None => None
            | Some (inl closed) => Some closed
            | Some (inr (a, effs, headers, header_len, result, result_len)) =>
                if Z.of_nat (sizeof_headers - 1) <=? header_len
                then Some (closing env a effs [PbufFree] ERR_CLSD)
                else
                  let con_state :=
                    {| sent_len := 0; headers := headers; result := result;
                       header_len := header_len; result_len := result_len;
                       gw := gw con_state |} in
                  let w1 := TcpWrite (string_take (Z.to_nat header_len) headers) in
                  if negb (write_headers_err env =? ERR_OK)
                  then Some (closing env a effs [w1; PbufFree]
                               (write_headers_err env))
                  else if 0 <? result_len then
                    let w2 := TcpWrite (string_take (Z.to_nat result_len) result) in
                    if negb (write_body_err env =? ERR_OK)
                    then Some (closing env a effs [w1; w2; PbufFree]
                                 (write_body_err env))
                    else
                      Some {| con := Some con_state; alarm := a;
                              effects := effs;
                              actions := [w1; w2; TcpRecved tot_len; PbufFree];
                              ret := ERR_OK |}
                  else
                    Some {| con := Some con_state; alarm := a;
                            effects := effs;
                            actions := [w1; TcpRecved tot_len; PbufFree];
                            ret := ERR_OK |}
            end
        | None =>
            Some {| con := Some {| sent_len := sent_len con_state;
                                   headers := headers;
                                   result := result con_state;
                                   header_len := header_len con_state;
                                   result_len := result_len con_state;
                                   gw := gw con_state |};
                    alarm := a; effects := [];
                    actions := [TcpRecved tot_len; PbufFree]; ret := ERR_OK |}
        end
      else
        Some {| con := Some con_state; alarm := a; effects := [];
                actions := [PbufFree]; ret := ERR_OK |}
  end.

(** [IP4_ADDR(&state->gw, 192, 168, 4, 1)] in [network_manager_init]. *)
Definition gateway : Z := IP4_ADDR 192 168 4 1.

End Http.

(** ** Supervisor (src/Atividade_08.c) *)

Module Supervisor.

Record TCP_SERVER_T := mk_srv {
  complete : bool;
  gw : Z
}.

(** [key_pressed_func]: [param] is the callback argument ([None] for
    NULL) and [key] what [getchar_timeout_us(0)] returns, a character
    code or a negative error. *)
Definition key_pressed_func (param : option TCP_SERVER_T) (key : Z)
    : option TCP_SERVER_T :=
  match param with
  | None => None
  | Some state =>
      if ((key =? Z.of_nat (nat_of_ascii "d"))
          || (key =? Z.of_nat (nat_of_ascii "D")))
         && negb (complete state)
      then Some {| complete := true; gw := gw state |}
      else Some state
  end.

(** The condition of the main loop,
    [while (g_server_state && !g_server_state->complete)]. *)
Definition main_loop_continues (g_server_state : option TCP_SERVER_T) : bool :=
  match g_server_state with
  | None => false
  | Some state => negb (complete state)
  end.

End Supervisor.

(** * Specification vocabulary and scenario inputs *)

(** ** The lease table and the messages of the scenarios *)

Module DhcpSpec.

Import Dhcp.


(** A free slot that was never issued, or was cleared. *)
Definition cleared : dhcp_server_lease_t := {| mac := zero_mac; expiry := 0 |}.

(** An entry seen by the DHCPDISCOVER pass is unchanged, or it is cleared,
    and then it held another client's address and a lease that ran out. *)
Definition discover_step (ctm : Z) (ch : list Z)
    (l l' : dhcp_server_lease_t) : Prop :=
  l' = l \/
  (l' = cleared /\ mac_eqb (mac l) ch = false /\
   mac_is_null (mac l) = false /\ lease_expired_discover ctm l = true).

(** The table after a datagram, by message type. *)
Definition lease_after_discover (d : dhcp_server_t) (now : Z) (ch : list Z) :=
  (discover_scan (Z.shiftr (u32 now) 16) ch (lease d) 0 None).1.1.

Definition lease_after_request (d : dhcp_server_t) (now : Z) (ch : list Z) :=
  match request_find_mac ch (lease d) with
  | Some yi => alter (set_expiry (new_expiry now)) yi (lease d)
  | None =>
      match request_find_free now (lease d) with
      | Some yi =>
          alter (set_expiry (new_expiry now)) yi
            (alter (set_mac ch) yi (lease d))
      | None => lease d
      end
  end.

(** No two slots with a non-zero MAC hold the same MAC. *)
Definition lease_unique (ls : list dhcp_server_lease_t) : Prop :=
  forall i j li lj, i <> j ->
    ls !! i = Some li -> ls !! j = Some lj ->
    mac li <> zero_mac -> mac lj <> zero_mac -> mac li <> mac lj.

(** Every MAC field has its six bytes. *)
Definition lease_wf (ls : list dhcp_server_lease_t) : Prop :=
  forall i l, ls !! i = Some l -> length (mac l) = MAC_LEN.

(** A stream of datagrams: for each, the clock, the stack under the
    local message and the bytes received. *)
Record dhcp_input := mk_input {
  in_now : Z;
  in_frame : list Z;
  in_pkt : list Z
}.

Definition dhcp_run (d : dhcp_server_t) (ins : list dhcp_input) : dhcp_server_t :=
  fold_left
    (fun d x => (dhcp_server_process d (in_now x) (in_frame x) (in_pkt x)).1)
    ins d.

(** The access point of both applications: 192.168.4.1/24. *)
Definition ap_ip : Z := IP4_ADDR 192 168 4 1.
Definition ap_mask : Z := IP4_ADDR 255 255 255 0.

(** A client message: BOOTREQUEST over Ethernet, xid DEADBEEF, the given
    flags, ciaddr and hardware address, and the options
    [53, 1, ty, END] after the magic cookie. *)
Definition client_msg (ty : Z) (flags ciaddr ch : list Z) : list Z :=
  [1; 1; 6; 0] ++ [222; 173; 190; 239] ++ [0; 0] ++ flags ++ ciaddr ++
  replicate 12 0 ++ ch ++ replicate 10 0 ++ replicate 192 0 ++
  [99; 130; 83; 99] ++ [DHCP_OPT_MSG_TYPE; 1; ty; DHCP_OPT_END].

Definition mac_01 : list Z := [2; 0; 0; 0; 0; 1].
Definition mac_02 : list Z := [2; 0; 0; 0; 0; 2].
Definition mac_03 : list Z := [2; 0; 0; 0; 0; 3].

Definition discover_01 : list Z :=
  client_msg DHCPDISCOVER [0; 0] [0; 0; 0; 0] mac_01.
Definition request_01 : list Z :=
  client_msg DHCPREQUEST [0; 0] [0; 0; 0; 0] mac_01.

(** The message as [dhcp_server_process] holds it after the copy. *)
Definition in_memory (pkt : list Z) : list Z :=
  pbuf_copy_partial (stack_image frame_size []) pkt sizeof_dhcp_msg.

(** The slot a DHCPDISCOVER selects: the matching one, else the first
    free one. *)
Definition discover_selected (d : dhcp_server_t) (now : Z) (ch : list Z)
    : option nat :=
  let '(_, yi_idx, best_free_idx) :=
    discover_scan (Z.shiftr (u32 now) 16) ch (lease d) 0 None in
  match yi_idx with Some _ => yi_idx | None => best_free_idx end.

(** The sentence of the design document: the client's MAC is written into
    the selected slot when that slot was free, and no other entry
    changes. *)
Definition discover_binds_mac : Prop :=
  forall d now frame pkt m yi l,
    dhcp_receive frame pkt = Some (m, DHCPDISCOVER) ->
    discover_selected d now (chaddr m) = Some yi ->
    lease d !! yi = Some l -> mac l = zero_mac ->
    let d' := (dhcp_server_process d now frame pkt).1 in
    (exists l', lease d' !! yi = Some l' /\ mac l' = chaddr m) /\
    (forall j, j <> yi -> lease d' !! j = lease d !! j).

(** A table with two leases that ran out long before tick 655360. *)
Definition two_expired : dhcp_server_t :=
  {| ip := ap_ip; nm := ap_mask;
     lease := [ {| mac := mac_02; expiry := 1 |};
                {| mac := mac_03; expiry := 2 |} ] ++
              replicate 6 cleared |}.

(** The four bytes [opt_write_u32] emits for a word: most significant
    first. *)
Definition be32_bytes (v : Z) : list Z :=
  [u8 (Z.shiftr v 24); u8 (Z.shiftr v 16); u8 (Z.shiftr v 8); u8 v].

(** The header of the reply: BOOTREPLY, [siaddr], [yiaddr]. *)
Definition reply_header (d : dhcp_server_t) (m : list Z) (yi : nat) : list Z :=
  write_yiaddr d (store (poke m off_op 2) off_siaddr (le32_bytes (ip d))) yi.

(** The first exchange of a client (scenario S1): DHCPDISCOVER, then
    DHCPREQUEST, from 02:00:00:00:00:01 on the fresh table. *)
Definition after_discover_01 : dhcp_server_t * option datagram :=
  dhcp_server_process (dhcp_server_init ap_ip ap_mask) 1000 [] discover_01.

Definition after_request_01 : dhcp_server_t * option datagram :=
  dhcp_server_process after_discover_01.1 2000 [] request_01.

(** The options the design document gives for an OFFER of 192.168.4.1/24
    with a lease of 86400 s. *)
Definition documented_offer_options : list Z :=
  [53; 1; 2] ++ [54; 4; 192; 168; 4; 1] ++ [1; 4; 255; 255; 255; 0] ++
  [3; 4; 192; 168; 4; 1] ++ [6; 4; 192; 168; 4; 1] ++
  [51; 4; 0; 1; 81; 128] ++ [255].

(** A request with an all-zero hardware address. *)
Definition request_00 : list Z :=
  client_msg DHCPREQUEST [0; 0] [0; 0; 0; 0] zero_mac.




End DhcpSpec.

(** ** Names on the wire and the answer record *)

Module DnsSpec.

Import Dns.

(** The 256 byte values. *)
Definition bytes256 : list Z := map Z.of_nat (seq 0 256).

(** A name on the wire: each label after its length, then the zero
    length of the root. *)
Definition encode_name (labels : list (list Z)) : list Z :=
  flat_map (fun lab => Z.of_nat (length lab) :: lab) labels ++ [0].

Definition label_ok (lab : list Z) : Prop := (1 <= length lab <= 63)%nat.

(** The answer the server appends: a pointer to offset 12, type A, class
    IN, TTL 60, RDLENGTH 4, then the address. *)
Definition answer_record (addr : Z) : list Z :=
  [192; 12] ++ [0; 1] ++ [0; 1] ++ [0; 0; 0; 60] ++ [0; 4] ++ ip_octets addr.

(** Scenario S4: id 1234, flags 0100, one question, www.example.com, A,
    IN, asked from 192.168.4.16 port 5353. *)
Definition www_example_com : list (list Z) :=
  [ [119; 119; 119]; [101; 120; 97; 109; 112; 108; 101]; [99; 111; 109] ].

End DnsSpec.

(** ** Requests, responses and the command in the query *)

Module HttpSpec.

Import Alarm Http.

(** A stack that accepts every call. *)
Definition stack_ok : tcp_stack :=
  {| write_headers_err := ERR_OK; write_body_err := ERR_OK;
     tcp_close_err := ERR_OK |}.

(** The two candidates for the bytes of the redirect: with LF, as the
    format macro has them, and with CRLF. *)
Definition redirect_lf : string :=
  "HTTP/1.1 302 Redirect" +:+ LF +:+
  "Location: http://192.168.4.1/" +:+ LF +:+ LF.

Definition redirect_crlf : string :=
  "HTTP/1.1 302 Redirect" +:+ CR +:+ LF +:+
  "Location: http://192.168.4.1/" +:+ CR +:+ LF +:+ CR +:+ LF.

Definition get_favicon : string :=
  "GET /favicon.ico HTTP/1.1" +:+ CR +:+ LF +:+ CR +:+ LF.

(** The buffer [tcp_server_recv] parses: the first 127 bytes received, up
    to the first NUL. *)
Definition request_buffer (data : string) : string :=
  cstr (string_take (Nat.min (String.length data) (sizeof_headers - 1)) data).

(** The acknowledgements of a connection, in order: [None] once
    [tcp_server_sent] has closed it. *)
Fixpoint acknowledged (env : tcp_stack) (con_state : TCP_CONNECT_STATE_T)
    (a : alarm_state) (lens : list Z) : option TCP_CONNECT_STATE_T :=
  match lens with
  | [] => Some con_state
  | len :: rest =>
      match con (tcp_server_sent env con_state a len) with
      | None => None
      | Some con_state => acknowledged env con_state a rest
      end
  end.

Definition sum_Z (l : list Z) : Z := fold_right Z.add 0 l.

Fixpoint string_forallb (p : ascii -> bool) (s : string) : bool :=
  match s with
  | EmptyString => true
  | String c rest => p c && string_forallb p rest
  end.

(** A request target without query: not empty, and free of blanks, ['?']
    and NUL; and a request line with such a target. *)
Definition path_char (c : ascii) : bool :=
  negb (Ascii.eqb c " " || Ascii.eqb c "?" || Ascii.eqb c NUL).

Definition plain_path (s : string) : Prop :=
  s <> EmptyString /\ string_forallb path_char s = true.

Definition get_path (path rest : string) : string :=
  "GET " +:+ path +:+ " " +:+ rest.

(** White space only; a non-empty run without white space; and what may
    follow the word [%s] reads: nothing, or white space. *)
Definition blank (s : string) : Prop := string_forallb isspace s = true.

Definition word (w : string) : Prop :=
  w <> EmptyString /\ string_forallb (fun c => negb (isspace c)) w = true.

Definition ends_word (rest : string) : Prop :=
  match rest with
  | EmptyString => True
  | String c _ => isspace c = true
  end.

(** The query starts with "alarm=" and [w] is the word after it. *)
Definition command_word (q w : string) : Prop :=
  exists ws rest,
    q = "alarm=" +:+ ws +:+ w +:+ rest /\ blank ws /\ word w /\ ends_word rest.

(** [s] occurs somewhere in [q]. *)
Definition contains (s q : string) : Prop :=
  exists pre post, q = pre +:+ s +:+ post.

(** The sentence of the design document for "alarm=on": a query that
    contains it anywhere leaves the alarm active. *)
Definition substring_rule : Prop :=
  forall now_us q a a' effs body n,
    contains "alarm=on" q ->
    http_generate_page_content now_us (Some q) sizeof_result a =
      Some (a', effs, body, n) ->
    alarm_control_is_active a' = true.

(** What a query asks for: nothing when it is absent or holds no command
    word, else its word. *)
Inductive query_command : option string -> option string -> Prop :=
  | query_absent : query_command None None
  | query_no_word q :
      (forall w, ~ command_word q w) -> query_command (Some q) None
  | query_word q w : command_word q w -> query_command (Some q) (Some w).

(** A request line for /?alarm=on, followed by anything. *)
Definition get_alarm_on (rest : string) : string := "GET /?alarm=on " +:+ rest.

(** The page for the active alarm and the header that precedes it. *)
Definition page_on : string :=
  ALARM_PAGE_BODY "on" "LIGADO" "off" "off" "Desligar".

Definition header_200 (content_length : nat) : string :=
  HTTP_RESPONSE_HEADERS 200 content_length.

(** The supervisor loop between two requests: [alarm_control_process] at
    the given clock readings. *)
Definition supervisor_ticks (ticks : list Z) (a : alarm_state) : alarm_state :=
  fold_left (fun a t => (alarm_control_process t a).1) ticks a.

End HttpSpec.

(** ** Console keys *)

Module SupervisorSpec.

Import Supervisor.

(** The value [getchar_timeout_us] returns for a character. *)
Definition key (c : ascii) : Z := Z.of_nat (nat_of_ascii c).

(** The sentence of the design document: each of q, Q, d and D sets the
    shutdown flag. *)
Definition four_keys_rule : Prop :=
  forall state k,
    k = key "q" \/ k = key "Q" \/ k = key "d" \/ k = key "D" ->
    exists state',
      key_pressed_func (Some state) k = Some state' /\ complete state' = true.

End SupervisorSpec.

(** * Properties *)

(** ** Buffers *)

Lemma length_poke (m : list Z) i v : length (poke m i v) = length m.
Proof. apply length_insert. Qed.

Lemma length_store (m : list Z) i vs : length (store m i vs) = length m.
Proof. apply length_inserts. Qed.

Lemma length_stack_image n frame : length (stack_image n frame) = n.
Proof.
  unfold stack_image. rewrite length_take, length_app, length_replicate. lia.
Qed.

Lemma length_pbuf_copy_partial buf pkt n :
  length (pbuf_copy_partial buf pkt n) = length buf.
Proof. apply length_store. Qed.

Lemma lookup_poke_ne (m : list Z) i j v : i <> j -> poke m i v !! j = m !! j.
Proof. apply list_lookup_insert_ne. Qed.

Lemma lookup_store_lt (m : list Z) i j vs :
  (j < i)%nat -> store m i vs !! j = m !! j.
Proof. apply list_lookup_inserts_lt. Qed.

Lemma lookup_store_ge (m : list Z) i j vs :
  (i + length vs <= j)%nat -> store m i vs !! j = m !! j.
Proof. apply list_lookup_inserts_ge. Qed.

(** Writes at or after [n] leave the first [n] bytes alone. *)
Lemma take_poke_ge (m : list Z) n i v :
  (n <= i)%nat -> take n (poke m i v) = take n m.
Proof. apply take_insert_ge. Qed.

Lemma take_store_ge (m : list Z) n i vs :
  (n <= i)%nat -> take n (store m i vs) = take n m.
Proof.
  intros Hn. apply list_eq. intros j.
  destruct (decide (j < n)%nat) as [Hj|Hj].
  - rewrite !lookup_take_lt by lia. apply lookup_store_lt. lia.
  - rewrite !lookup_take_ge by lia. reflexivity.
Qed.

(** Writes inside the second part of a buffer. *)
Lemma poke_app_r (l1 l2 : list Z) i v :
  poke (l1 ++ l2) (length l1 + i) v = l1 ++ poke l2 i v.
Proof. apply insert_app_r. Qed.

Lemma store_app_r (l1 l2 : list Z) i vs :
  store (l1 ++ l2) (length l1 + i) vs = l1 ++ store l2 i vs.
Proof.
  unfold store. apply list_inserts_app_r.
Qed.

Lemma poke_at (pre rest : list Z) n i v :
  length pre = n -> (n <= i)%nat ->
  poke (pre ++ rest) i v = pre ++ poke rest (i - n) v.
Proof.
  intros <- Hi. replace i with (length pre + (i - length pre))%nat at 1 by lia.
  apply poke_app_r.
Qed.

Lemma store_at (pre rest : list Z) n i vs :
  length pre = n -> (n <= i)%nat ->
  store (pre ++ rest) i vs = pre ++ store rest (i - n) vs.
Proof.
  intros <- Hi. replace i with (length pre + (i - length pre))%nat at 1 by lia.
  apply store_app_r.
Qed.

(** ** DHCP server *)

Module DhcpFacts.

Import Dhcp DhcpSpec.

(** *** Hardware addresses *)

Ltac six a :=
  let H := fresh in
  intros H; unfold MAC_LEN in H;
  do 6 (destruct a as [|? a]; [simpl in H; discriminate H|]);
  destruct a; [clear H|simpl in H; discriminate H].

Lemma mac_eqb_eq (a b : list Z) :
  length a = MAC_LEN -> length b = MAC_LEN ->
  mac_eqb a b = true <-> a = b.
Proof.
  intros Ha Hb. revert Ha. six a. revert Hb. six b.
  unfold mac_eqb, rd; simpl.
  rewrite !andb_true_iff, !Z.eqb_eq.
  split; [intros (-> & -> & -> & -> & -> & -> & _); reflexivity|].
  intros [= -> -> -> -> -> ->]. repeat split.
Qed.

Lemma mac_eqb_zero (a : list Z) : mac_eqb a zero_mac = mac_is_null a.
Proof. reflexivity. Qed.

Lemma mac_is_null_eq (a : list Z) :
  length a = MAC_LEN -> mac_is_null a = true <-> a = zero_mac.
Proof.
  intros Ha. rewrite <- mac_eqb_zero. apply mac_eqb_eq; [exact Ha|reflexivity].
Qed.




(** *** The message in memory *)

Lemma dhcp_receive_length frame pkt m ty :
  dhcp_receive frame pkt = Some (m, ty) -> length m = frame_size.
Proof.
  unfold dhcp_receive. intros H.
  destruct (_ <? _)%nat; [discriminate|].
  destruct (negb _); [discriminate|].
  destruct (opt_find _ _ _); [|discriminate].
  destruct (_ =? 1); [|discriminate].
  injection H as <- _.
  rewrite length_pbuf_copy_partial. apply length_stack_image.
Qed.

Lemma chaddr_length m :
  (off_chaddr + MAC_LEN <= length m)%nat -> length (chaddr m) = MAC_LEN.
Proof.
  intros H. unfold chaddr. rewrite length_take, length_drop. lia.
Qed.

Lemma chaddr_ext m m' :
  (forall j, (off_chaddr <= j < off_chaddr + MAC_LEN)%nat -> m !! j = m' !! j) ->
  chaddr m = chaddr m'.
Proof.
  intros H. unfold chaddr. apply list_eq. intros j.
  destruct (decide (j < MAC_LEN)%nat) as [Hj|Hj].
  - rewrite !lookup_take_lt, !lookup_drop by lia. apply H. lia.
  - rewrite !lookup_take_ge by lia. reflexivity.
Qed.

(** The header writes of the reply leave [chaddr] alone. *)
Lemma chaddr_reply_header m addr :
  chaddr (store (poke m off_op 2) off_siaddr (le32_bytes addr)) = chaddr m.
Proof.
  apply chaddr_ext. intros j Hj. unfold off_chaddr, MAC_LEN in Hj.
  rewrite lookup_store_ge by (simpl; unfold off_siaddr; lia).
  apply lookup_poke_ne. unfold off_op. lia.
Qed.

(** The fuel of [opt_find_loop] is never what stops it. *)
Lemma opt_find_loop_fuel fuel k m opt cmd i :
  (312 - 4 <= i + fuel)%nat ->
  opt_find_loop (fuel + k) m opt cmd i = opt_find_loop fuel m opt cmd i.
Proof.
  revert i. induction fuel as [|fuel IH]; intros i Hi.
  - destruct k as [|k]; [reflexivity|]. cbn [Nat.add opt_find_loop].
    replace (i <? 312 - 4)%nat with false
      by (symmetry; apply Nat.ltb_ge; lia).
    reflexivity.
  - cbn [Nat.add opt_find_loop].
    destruct ((i <? 312 - 4)%nat && negb (rd m (opt + i) =? DHCP_OPT_END));
      [|reflexivity].
    destruct (rd m (opt + i) =? cmd); [reflexivity|].
    destruct (rd m (opt + i) =? DHCP_OPT_PAD); apply IH; lia.
Qed.

(** *** Slot searches *)

Lemma first_index_Some {A} (p : A -> bool) (l : list A) (i yi : nat) :
  first_index p l i = Some yi ->
  (i <= yi)%nat /\
  (exists x, l !! (yi - i)%nat = Some x /\ p x = true) /\
  (forall j y, (j < yi - i)%nat -> l !! j = Some y -> p y = false).
Proof.
  revert i. induction l as [|x l IH]; intros i; simpl; [discriminate|].
  destruct (p x) eqn:Hp.
  - intros [= <-]. rewrite Nat.sub_diag. split; [lia|]. split.
    + exists x. split; [reflexivity|exact Hp].
    + intros j y Hj. lia.
  - intros H. destruct (IH _ H) as (Hle & (y & Hy & Hpy) & Hlt).
    split; [lia|]. split.
    + exists y. replace (yi - i)%nat with (S (yi - S i)) by lia.
      split; [exact Hy|exact Hpy].
    + intros [|j] z Hj Hz.
      * injection Hz as <-. exact Hp.
      * apply (Hlt j); [lia|exact Hz].
Qed.

Lemma first_index_None {A} (p : A -> bool) (l : list A) (i : nat) :
  first_index p l i = None ->
  forall j y, l !! j = Some y -> p y = false.
Proof.
  revert i. induction l as [|x l IH]; intros i; simpl.
  - intros _ j y Hj. destruct j; discriminate.
  - destruct (p x) eqn:Hp; [discriminate|].
    intros H [|j] y Hy.
    + injection Hy as <-. exact Hp.
    + exact (IH _ H j y Hy).
Qed.


(** *** What one datagram does to the lease table *)

Lemma discover_scan_spec ctm ch ls i best ls' yi b :
  discover_scan ctm ch ls i best = (ls', yi, b) ->
  Forall2 (discover_step ctm ch) ls ls'.
Proof.
  revert i best ls' yi b.
  induction ls as [|l ls IH]; intros i best ls' yi b; simpl.
  - intros [= <- _ _]. constructor.
  - destruct (mac_eqb (mac l) ch) eqn:Heq.
    { intros [= <- _ _]. apply Forall2_same_length_lookup. split; [reflexivity|].
      intros j x y Hx Hy. left. congruence. }
    destruct (mac_is_null (mac l)) eqn:Hnull.
    { destruct (discover_scan _ _ _ _ _) as [[r y] b'] eqn:Hrec.
      intros [= <- _ _]. constructor; [left; reflexivity|].
      exact (IH _ _ _ _ _ Hrec). }
    destruct (lease_expired_discover ctm l) eqn:Hexp.
    { destruct (discover_scan _ _ _ _ _) as [[r y] b'] eqn:Hrec.
      intros [= <- _ _]. constructor.
      - right. repeat split; assumption.
      - exact (IH _ _ _ _ _ Hrec). }
    destruct (discover_scan _ _ _ _ _) as [[r y] b'] eqn:Hrec.
    intros [= <- _ _]. constructor; [left; reflexivity|].
    exact (IH _ _ _ _ _ Hrec).
Qed.

Lemma process_lease d now frame pkt :
  lease (dhcp_server_process d now frame pkt).1 =
  match dhcp_receive frame pkt with
  | None => lease d
  | Some (m, ty) =>
      if ty =? DHCPDISCOVER then lease_after_discover d now (chaddr m)
      else if ty =? DHCPREQUEST then lease_after_request d now (chaddr m)
      else lease d
  end.
Proof.
  unfold dhcp_server_process.
  destruct (dhcp_receive frame pkt) as [[m ty]|]; [|reflexivity].
  rewrite chaddr_reply_header.
  destruct (ty =? DHCPDISCOVER).
  - unfold lease_after_discover.
    destruct (discover_scan _ _ _ _ _) as [[ls yi] b].
    destruct yi, b; reflexivity.
  - destruct (ty =? DHCPREQUEST); [|reflexivity].
    unfold lease_after_request.
    destruct (request_find_mac _ _); [reflexivity|].
    destruct (request_find_free _ _); reflexivity.
Qed.

(** *** Lease uniqueness *)

(** Uniqueness survives any update that, slot by slot, keeps the MAC or
    zeroes it. *)
Lemma lease_unique_shrink ls ls' :
  (forall i l', ls' !! i = Some l' ->
     mac l' = zero_mac \/ exists l, ls !! i = Some l /\ mac l = mac l') ->
  lease_unique ls -> lease_unique ls'.
Proof.
  intros Hstep Hu i j li lj Hij Hi Hj Hzi Hzj.
  destruct (Hstep i li Hi) as [Hz|(l1 & Hl1 & E1)]; [contradiction|].
  destruct (Hstep j lj Hj) as [Hz|(l2 & Hl2 & E2)]; [contradiction|].
  rewrite <- E1 in *. rewrite <- E2 in *.
  exact (Hu i j l1 l2 Hij Hl1 Hl2 Hzi Hzj).
Qed.

Lemma lease_unique_init ip nm : lease_unique (lease (dhcp_server_init ip nm)).
Proof.
  intros i j li lj _ Hi _ Hz _. unfold dhcp_server_init, lease in Hi.
  apply lookup_replicate in Hi as [-> _]. contradiction Hz. reflexivity.
Qed.

Lemma lease_wf_init ip nm : lease_wf (lease (dhcp_server_init ip nm)).
Proof.
  intros i l Hi. unfold dhcp_server_init, lease in Hi.
  apply lookup_replicate in Hi as [-> _]. reflexivity.
Qed.

Lemma discover_keeps_unique d now ch :
  lease_unique (lease d) -> lease_unique (lease_after_discover d now ch).
Proof.
  unfold lease_after_discover.
  destruct (discover_scan _ _ _ _ _) as [[ls' yi] b] eqn:Hscan.
  apply discover_scan_spec in Hscan. simpl.
  apply lease_unique_shrink. intros i l' Hi.
  destruct (Forall2_lookup_r _ _ _ _ _ Hscan Hi) as (l & Hl & [->|[-> _]]).
  - right. exists l. split; [exact Hl|reflexivity].
  - left. reflexivity.
Qed.

Lemma discover_keeps_wf d now ch :
  lease_wf (lease d) -> lease_wf (lease_after_discover d now ch).
Proof.
  unfold lease_after_discover.
  destruct (discover_scan _ _ _ _ _) as [[ls' yi] b] eqn:Hscan.
  apply discover_scan_spec in Hscan. simpl.
  intros Hwf i l' Hi.
  destruct (Forall2_lookup_r _ _ _ _ _ Hscan Hi) as (l & Hl & [->|[-> _]]).
  - exact (Hwf i l Hl).
  - reflexivity.
Qed.

Lemma lookup_set_expiry (ls : list dhcp_server_lease_t) (yi : nat) e
    (i : nat) (l' : dhcp_server_lease_t) :
  alter (set_expiry e) yi ls !! i = Some l' ->
  exists l, ls !! i = Some l /\ mac l = mac l'.
Proof.
  destruct (decide (yi = i)) as [->|Hne].
  - rewrite list_lookup_alter_eq. destruct (ls !! i) as [l|]; [|discriminate].
    intros [= <-]. exists l. split; reflexivity.
  - rewrite list_lookup_alter_ne by exact Hne. intros H. exists l'.
    split; [exact H|reflexivity].
Qed.

Lemma request_keeps_unique d now ch :
  length ch = MAC_LEN -> lease_wf (lease d) ->
  lease_unique (lease d) -> lease_unique (lease_after_request d now ch).
Proof.
  intros Hch Hwf Hu. unfold lease_after_request.
  destruct (request_find_mac ch (lease d)) as [yi|] eqn:Hmac.
  - revert Hu. apply lease_unique_shrink. intros i l' Hi. right.
    exact (lookup_set_expiry _ _ _ _ _ Hi).
  - destruct (request_find_free now (lease d)) as [yi|]; [|exact Hu].
    assert (Hfresh : forall j l, lease d !! j = Some l -> mac l <> ch).
    { intros j l Hl Heq.
      pose proof (first_index_None _ _ _ Hmac j l Hl) as Hne. simpl in Hne.
      rewrite (proj2 (mac_eqb_eq _ _ (Hwf j l Hl) Hch) Heq) in Hne.
      discriminate. }
    intros i j li lj Hij Hi Hj Hzi Hzj.
    apply lookup_set_expiry in Hi as (l1 & Hl1 & E1).
    apply lookup_set_expiry in Hj as (l2 & Hl2 & E2).
    rewrite <- E1 in *. rewrite <- E2 in *. clear E1 E2.
    destruct (decide (yi = i)) as [->|Hi'];
      [|destruct (decide (yi = j)) as [->|Hj']].
    + rewrite list_lookup_alter_eq in Hl1.
      rewrite list_lookup_alter_ne in Hl2 by exact Hij.
      destruct (lease d !! i); [|discriminate]. injection Hl1 as <-. simpl.
      intros Heq. exact (Hfresh j l2 Hl2 (eq_sym Heq)).
    + rewrite list_lookup_alter_eq in Hl2.
      rewrite list_lookup_alter_ne in Hl1 by (intros ->; exact (Hij eq_refl)).
      destruct (lease d !! j); [|discriminate]. injection Hl2 as <-. simpl.
      exact (Hfresh i l1 Hl1).
    + rewrite list_lookup_alter_ne in Hl1 by exact Hi'.
      rewrite list_lookup_alter_ne in Hl2 by exact Hj'.
      exact (Hu i j l1 l2 Hij Hl1 Hl2 Hzi Hzj).
Qed.

Lemma request_keeps_wf d now ch :
  length ch = MAC_LEN -> lease_wf (lease d) ->
  lease_wf (lease_after_request d now ch).
Proof.
  intros Hch Hwf. unfold lease_after_request.
  destruct (request_find_mac ch (lease d)) as [yi|].
  - intros i l' Hi. apply lookup_set_expiry in Hi as (l & Hl & E).
    rewrite <- E. exact (Hwf i l Hl).
  - destruct (request_find_free now (lease d)) as [yi|]; [|exact Hwf].
    intros i l' Hi. apply lookup_set_expiry in Hi as (l & Hl & E).
    rewrite <- E. clear E.
    destruct (decide (yi = i)) as [->|Hne].
    + rewrite list_lookup_alter_eq in Hl.
      destruct (lease d !! i); [|discriminate]. injection Hl as <-. exact Hch.
    + rewrite list_lookup_alter_ne in Hl by exact Hne. exact (Hwf i l Hl).
Qed.

(** One datagram keeps the table well formed and its MACs unique. *)
Lemma process_keeps_invariant d now frame pkt :
  lease_wf (lease d) /\ lease_unique (lease d) ->
  let d' := (dhcp_server_process d now frame pkt).1 in
  lease_wf (lease d') /\ lease_unique (lease d').
Proof.
  intros [Hwf Hu]. simpl. rewrite process_lease.
  destruct (dhcp_receive frame pkt) as [[m ty]|] eqn:Hrecv; [|split; assumption].
  assert (Hch : length (chaddr m) = MAC_LEN).
  { apply chaddr_length. rewrite (dhcp_receive_length _ _ _ _ Hrecv).
    unfold off_chaddr, MAC_LEN, frame_size, sizeof_dhcp_msg. lia. }
  destruct (ty =? DHCPDISCOVER).
  - split; [apply discover_keeps_wf|apply discover_keeps_unique]; assumption.
  - destruct (ty =? DHCPREQUEST); [|split; assumption].
    split; [apply request_keeps_wf|apply request_keeps_unique]; assumption.
Qed.

(** C7. Lease uniqueness: from the all-free table that [dhcp_server_init]
    produces, after any sequence of datagrams (whatever their bytes, the
    clock and the stack content), no two slots whose MAC is non-zero hold
    the same MAC. *)
Theorem lease_uniqueness (ip nm : Z) (ins : list dhcp_input) :
  lease_unique (lease (dhcp_run (dhcp_server_init ip nm) ins)).
Proof.
  cut (forall d, lease_wf (lease d) /\ lease_unique (lease d) ->
         lease_wf (lease (dhcp_run d ins)) /\
         lease_unique (lease (dhcp_run d ins))).
  { intros H. apply H. split; [apply lease_wf_init|apply lease_unique_init]. }
  induction ins as [|x ins IH]; intros d Hd; [exact Hd|].
  simpl. apply IH. apply process_keeps_invariant. exact Hd.
Qed.

(** *** DHCPDISCOVER and the lease table *)

(** On the fresh table the DHCPDISCOVER of 02:00:00:00:00:01 selects slot
    0, which is free, and is answered; slot 0 still holds the zero MAC. *)
Lemma discover_binds_mac_fails : ~ discover_binds_mac.
Proof.
  intros H.
  destruct (H (dhcp_server_init ap_ip ap_mask) 1000 [] discover_01
              (in_memory discover_01) 0%nat cleared)
    as [(l' & Hl' & Hmac) _]; try (vm_compute; reflexivity).
  vm_compute in Hl'. injection Hl' as <-. vm_compute in Hmac. discriminate.
Qed.

(** Other entries do change: two leases that ran out are both cleared by
    one DHCPDISCOVER, which selects only the first. *)
Example discover_clears_unselected_slot :
  let now := 10 * 65536 in
  discover_selected two_expired now (chaddr (in_memory discover_01)) = Some 0%nat /\
  lease two_expired !! 1%nat = Some {| mac := mac_03; expiry := 2 |} /\
  lease (dhcp_server_process two_expired now [] discover_01).1 !! 1%nat =
    Some cleared.
Proof. vm_compute. repeat split. Qed.

(** C8 (as the code has it). Processing one DHCPDISCOVER writes the
    client's MAC into no slot: entry by entry, the table afterwards is the
    table before, except that an entry may have been cleared (MAC all-zero,
    expiry 0), and only if it held a non-zero MAC other than the client's
    and a non-zero expiry that the current coarse time has passed. *)
Theorem discover_frame d now frame pkt m :
  dhcp_receive frame pkt = Some (m, DHCPDISCOVER) ->
  Forall2 (discover_step (Z.shiftr (u32 now) 16) (chaddr m))
    (lease d) (lease (dhcp_server_process d now frame pkt).1).
Proof.
  intros Hrecv. rewrite process_lease, Hrecv. simpl.
  unfold lease_after_discover.
  destruct (discover_scan _ _ _ _ _) as [[ls' yi] b] eqn:Hscan.
  exact (discover_scan_spec _ _ _ _ _ _ _ _ Hscan).
Qed.

Lemma discover_frame_witness :
  Forall2 (discover_step (Z.shiftr (u32 (10 * 65536)) 16)
             (chaddr (in_memory discover_01)))
    (lease two_expired)
    (lease (dhcp_server_process two_expired (10 * 65536) [] discover_01).1).
Proof.
  apply (discover_frame two_expired (10 * 65536) [] discover_01
           (in_memory discover_01)).
  vm_compute. reflexivity.
Defined.

(** *** The reply *)

(** The bytes on the wire of an OFFER or ACK: the fixed part of the
    message, then the options area. Server-Identifier carries the address
    word most significant byte first, and Lease-Time the byte-swapped
    constant most significant byte first. *)
Lemma dhcp_reply_payload d m t ty :
  length m = frame_size ->
  payload (dhcp_reply d
             (opt_write_u8 (m, (off_options + 4)%nat) DHCP_OPT_MSG_TYPE t) ty) =
  take (off_options + 4) m ++
  [DHCP_OPT_MSG_TYPE; 1; t] ++
  [DHCP_OPT_SERVER_ID; 4] ++ be32_bytes (ip d) ++
  [DHCP_OPT_SUBNET_MASK; 4] ++ le32_bytes (nm d) ++
  [DHCP_OPT_ROUTER; 4] ++ le32_bytes (ip d) ++
  [DHCP_OPT_DNS; 4] ++ le32_bytes (ip d) ++
  [DHCP_OPT_IP_LEASE_TIME; 4] ++ be32_bytes (lwip_htonl DEFAULT_LEASE_TIME_S) ++
  [DHCP_OPT_END].
Proof.
  intros Hlen.
  rewrite <- (take_drop (off_options + 4) m) at 1.
  assert (Hpre : length (take (off_options + 4) m) = 240%nat).
  { rewrite length_take, Hlen. reflexivity. }
  assert (Hrest : length (drop (off_options + 4) m) = 310%nat).
  { rewrite length_drop, Hlen. reflexivity. }
  generalize dependent (take (off_options + 4) m). intros pre Hpre.
  generalize dependent (drop (off_options + 4) m). intros rest Hrest.
  do 35 (destruct rest as [|? rest]; [discriminate Hrest|]).
  clear Hrest Hlen.
  unfold dhcp_reply, opt_write_u8, opt_write_u32, opt_write_n,
    dhcp_socket_sendto, payload, le32_bytes, off_options.
  cbn [fst snd Nat.add take length].
  repeat first
    [ rewrite (poke_at pre _ 240) by (exact Hpre || lia)
    | rewrite (store_at pre _ 240) by (exact Hpre || lia) ].
  cbn [Nat.sub].
  replace (Z.to_nat (Z.min (Z.of_nat 274) 65535)) with (length pre + 34)%nat
    by (rewrite Hpre; reflexivity).
  rewrite take_app_add.
  reflexivity.
Qed.

Lemma dhcp_reply_dest d s ty :
  (ty =? DHCPACK) = false ->
  dst_ip (dhcp_reply d s ty) = [255; 255; 255; 255] /\
  dst_port (dhcp_reply d s ty) = PORT_DHCP_CLIENT.
Proof.
  intros Hty. destruct s as [m o].
  unfold dhcp_reply, opt_write_u32, opt_write_n. rewrite Hty.
  split; reflexivity.
Qed.

Lemma poke_poke (m : list Z) i v w : poke (poke m i v) i w = poke m i w.
Proof. apply list_insert_insert_eq. Qed.

Lemma poke_comm (m : list Z) i j v w :
  i <> j -> poke (poke m i v) j w = poke (poke m j w) i v.
Proof.
  intros Hij. unfold poke. apply list_insert_insert_ne.
  intros E. apply Hij. symmetry. exact E.
Qed.

(** Writing the message type option twice at the same place is writing it
    once. *)
Lemma opt_write_u8_twice m o cmd val :
  opt_write_u8 ((opt_write_u8 (m, o) cmd val).1, o) cmd val =
  opt_write_u8 (m, o) cmd val.
Proof.
  unfold opt_write_u8. cbn [fst snd]. f_equal.
  rewrite (poke_comm _ (o + 2) o) by lia.
  rewrite (poke_comm _ (o + 1) o) by lia.
  rewrite poke_poke.
  rewrite (poke_comm _ (o + 2) (o + 1)) by lia.
  rewrite !poke_poke.
  reflexivity.
Qed.

Lemma length_reply_header d m yi : length (reply_header d m yi) = length m.
Proof.
  unfold reply_header, write_yiaddr.
  rewrite length_poke, !length_store, length_poke. reflexivity.
Qed.

(** Every datagram the server sends answers a DHCPDISCOVER with an OFFER
    or a DHCPREQUEST with an ACK, for some slot of the table. *)
Lemma process_reply d now frame pkt g :
  (dhcp_server_process d now frame pkt).2 = Some g ->
  exists m ty t yi,
    dhcp_receive frame pkt = Some (m, ty) /\
    ((ty = DHCPDISCOVER /\ t = DHCPOFFER) \/
     (ty = DHCPREQUEST /\ t = DHCPACK)) /\
    g = dhcp_reply d
          (opt_write_u8 (reply_header d m yi, (off_options + 4)%nat)
             DHCP_OPT_MSG_TYPE t) ty.
Proof.
  unfold dhcp_server_process.
  destruct (dhcp_receive frame pkt) as [[m ty]|]; [|discriminate].
  destruct (ty =? DHCPDISCOVER) eqn:Hd.
  - apply Z.eqb_eq in Hd. subst ty.
    destruct (discover_scan _ _ _ _ _) as [[ls yi] b].
    assert (Hsel : forall yi0,
      (({| ip := ip d; nm := nm d; lease := ls |},
        Some (dhcp_reply {| ip := ip d; nm := nm d; lease := ls |}
          (opt_write_u8
             ((opt_write_u8
                 (write_yiaddr {| ip := ip d; nm := nm d; lease := ls |}
                    (store (poke m off_op 2) off_siaddr (le32_bytes (ip d)))
                    yi0, (off_options + 4)%nat) DHCP_OPT_MSG_TYPE DHCPOFFER).1,
              (off_options + 4)%nat) DHCP_OPT_MSG_TYPE DHCPOFFER)
          DHCPDISCOVER)).2 = Some g) ->
      exists m0 ty t yi1,
        Some (m, DHCPDISCOVER) = Some (m0, ty) /\
        ((ty = DHCPDISCOVER /\ t = DHCPOFFER) \/
         (ty = DHCPREQUEST /\ t = DHCPACK)) /\
        g = dhcp_reply d
              (opt_write_u8 (reply_header d m0 yi1, (off_options + 4)%nat)
                 DHCP_OPT_MSG_TYPE t) ty).
    { intros yi0 H. rewrite opt_write_u8_twice in H. injection H as <-.
      exists m, DHCPDISCOVER, DHCPOFFER, yi0.
      split; [reflexivity|]. split; [left; split; reflexivity|]. reflexivity. }
    destruct yi as [yi|]; [apply Hsel|].
    destruct b as [yi|]; [apply Hsel|discriminate].
  - destruct (ty =? DHCPREQUEST) eqn:Hr; [|discriminate].
    apply Z.eqb_eq in Hr. subst ty.
    assert (Hsel : forall yi0 ls,
      (({| ip := ip d; nm := nm d; lease := ls |},
        Some (dhcp_reply {| ip := ip d; nm := nm d; lease := ls |}
          (opt_write_u8
             (write_yiaddr {| ip := ip d; nm := nm d; lease := ls |}
                (store (poke m off_op 2) off_siaddr (le32_bytes (ip d)))
                yi0, (off_options + 4)%nat) DHCP_OPT_MSG_TYPE DHCPACK)
          DHCPREQUEST)).2 = Some g) ->
      exists m0 ty t yi1,
        Some (m, DHCPREQUEST) = Some (m0, ty) /\
        ((ty = DHCPDISCOVER /\ t = DHCPOFFER) \/
         (ty = DHCPREQUEST /\ t = DHCPACK)) /\
        g = dhcp_reply d
              (opt_write_u8 (reply_header d m0 yi1, (off_options + 4)%nat)
                 DHCP_OPT_MSG_TYPE t) ty).
    { intros yi0 ls H. injection H as <-.
      exists m, DHCPREQUEST, DHCPACK, yi0.
      split; [reflexivity|]. split; [right; split; reflexivity|]. reflexivity. }
    destruct (request_find_mac _ _) as [yi|]; [apply Hsel|].
    destruct (request_find_free _ _) as [yi|]; [apply Hsel|discriminate].
Qed.

(** *** Destination and options of the replies *)

(** The destination is the broadcast address for every datagram the
    server sends: [extracted_msg_type] is the type of the inbound message,
    1 or 3 here, and the unicast rule is guarded by its being DHCPACK. *)
Lemma reply_always_broadcast d now frame pkt g :
  (dhcp_server_process d now frame pkt).2 = Some g ->
  dst_ip g = [255; 255; 255; 255] /\ dst_port g = PORT_DHCP_CLIENT.
Proof.
  intros H.
  destruct (process_reply _ _ _ _ _ H) as (m & ty & t & yi & _ & Hty & ->).
  apply dhcp_reply_dest.
  destruct Hty as [[-> _]|[-> _]]; reflexivity.
Qed.

(** The options area of every OFFER and ACK of the access point
    192.168.4.1/24. *)
Lemma reply_options ls now frame pkt g :
  (dhcp_server_process {| ip := ap_ip; nm := ap_mask; lease := ls |}
     now frame pkt).2 = Some g ->
  exists t, (t = DHCPOFFER \/ t = DHCPACK) /\
    drop (off_options + 4) (payload g) =
    [53; 1; t; 54; 4; 1; 4; 168; 192; 1; 4; 255; 255; 255; 0;
     3; 4; 192; 168; 4; 1; 6; 4; 192; 168; 4; 1; 51; 4; 128; 81; 1; 0; 255].
Proof.
  intros H.
  destruct (process_reply _ _ _ _ _ H) as (m & ty & t & yi & Hrecv & Hty & ->).
  exists t. split; [destruct Hty as [[_ ->]|[_ ->]]; [left|right]; reflexivity|].
  rewrite dhcp_reply_payload
    by (rewrite length_reply_header; exact (dhcp_receive_length _ _ _ _ Hrecv)).
  rewrite drop_app_length'; [reflexivity|].
  rewrite length_take, length_reply_header,
    (dhcp_receive_length _ _ _ _ Hrecv).
  reflexivity.
Qed.

(** C1 (the code departs from it). The DHCPREQUEST of scenario S1 has the
    BROADCAST flag clear and an all-zero ciaddr, and is answered with an
    ACK for 192.168.4.16; that ACK is sent to 255.255.255.255, port 68, not
    to 192.168.4.16. *)
Theorem ack_broadcast_despite_unicast_rule :
  take 2 (drop off_flags request_01) = [0; 0] /\
  take 4 (drop off_ciaddr request_01) = [0; 0; 0; 0] /\
  exists g, after_request_01.2 = Some g /\
    take 3 (drop (off_options + 4) (payload g)) =
      [DHCP_OPT_MSG_TYPE; 1; DHCPACK] /\
    take 4 (drop off_yiaddr (payload g)) = [192; 168; 4; 16] /\
    dst_ip g = [255; 255; 255; 255] /\ dst_port g = 68.
Proof.
  split; [reflexivity|]. split; [reflexivity|].
  eexists. split; [vm_compute; reflexivity|].
  repeat split.
Qed.

(** C2 (the code departs from it). The OFFER of scenario S1 carries the
    options in the documented order and layout, but Server-Identifier
    holds the octets 1.4.168.192 and Lease-Time the bytes 80 51 01 00
    (2152792320 as a big-endian u32) where 192.168.4.1 and 86400 are
    documented. *)
Theorem offer_options_byte_order :
  exists g, after_discover_01.2 = Some g /\
    drop (off_options + 4) (payload g) =
      [53; 1; 2] ++ [54; 4; 1; 4; 168; 192] ++ [1; 4; 255; 255; 255; 0] ++
      [3; 4; 192; 168; 4; 1] ++ [6; 4; 192; 168; 4; 1] ++
      [51; 4; 128; 81; 1; 0] ++ [255] /\
    drop (off_options + 4) (payload g) <> documented_offer_options.
Proof.
  eexists. split; [vm_compute; reflexivity|].
  split; [reflexivity|]. vm_compute. discriminate.
Qed.

(** Scenarios S2 and S3 on the table S1 leaves: a second client is given
    192.168.4.17, and a third, whose DHCPREQUEST has the BROADCAST flag
    set, is given 192.168.4.18 in an ACK sent to the broadcast address. *)
Example second_and_third_client :
  let d1 := after_request_01.1 in
  let r2 := dhcp_server_process d1 3000 []
              (client_msg DHCPDISCOVER [0; 0] [0; 0; 0; 0] mac_02) in
  let r3 := dhcp_server_process r2.1 4000 []
              (client_msg DHCPREQUEST [0; 0] [0; 0; 0; 0] mac_02) in
  let r4 := dhcp_server_process r3.1 5000 []
              (client_msg DHCPREQUEST [128; 0] [0; 0; 0; 0] mac_03) in
  option_map (fun g => take 4 (drop off_yiaddr (payload g))) r2.2 =
    Some [192; 168; 4; 17] /\
  option_map (fun g => take 4 (drop off_yiaddr (payload g))) r3.2 =
    Some [192; 168; 4; 17] /\
  option_map (fun g => (take 4 (drop off_yiaddr (payload g)), dst_ip g)) r4.2 =
    Some ([192; 168; 4; 18], [255; 255; 255; 255]) /\
  map mac (take 3 (lease r4.1)) = [mac_01; mac_02; mac_03].
Proof. vm_compute. repeat split. Qed.

(** *** A DHCPREQUEST with an all-zero hardware address *)











(** The same run, datagram by datagram: the client that asks at tick
    90000000 is given 192.168.4.16, the address of slot 0. *)
Example later_scans_take_expired_slot :
  let d' := (dhcp_server_process after_request_01.1 3000 [] request_00).1 in
  map mac (take 2 (lease d')) = [mac_01; zero_mac] /\
  map expiry (take 2 (lease d')) = [1318; 1318] /\
  request_find_free 90000000 (lease d') = Some 0%nat /\
  discover_selected d' 90000000 mac_03 = Some 0%nat /\
  option_map (fun g => take 4 (drop off_yiaddr (payload g)))
    (dhcp_server_process d' 90000000 []
       (client_msg DHCPREQUEST [0; 0] [0; 0; 0; 0] mac_03)).2 =
    Some [192; 168; 4; 16] /\
  option_map (fun g => take 4 (drop off_yiaddr (payload g)))
    (dhcp_server_process d' 90000000 []
       (client_msg DHCPDISCOVER [0; 0] [0; 0; 0; 0] mac_03)).2 =
    Some [192; 168; 4; 16].
Proof. vm_compute. repeat split. Qed.



(** The hazard in one run: the all-zero request is given 192.168.4.17, and
    so is the next client to ask. *)
Example zero_chaddr_lease_is_given_again :
  let d := (dhcp_server_process after_request_01.1 3000 [] request_00).1 in
  option_map (fun g => take 4 (drop off_yiaddr (payload g)))
    (dhcp_server_process after_request_01.1 3000 [] request_00).2 =
    Some [192; 168; 4; 17] /\
  option_map (fun g => take 4 (drop off_yiaddr (payload g)))
    (dhcp_server_process d 4000 []
       (client_msg DHCPREQUEST [0; 0] [0; 0; 0; 0] mac_02)).2 =
    Some [192; 168; 4; 17].
Proof. vm_compute. split; reflexivity. Qed.

End DhcpFacts.

(** ** DNS server *)

Module DnsFacts.

Import Dns DnsSpec.

(** *** Byte order *)

Lemma bytes256_complete b : is_byte b -> In b bytes256.
Proof.
  intros Hb. unfold bytes256. apply in_map_iff. exists (Z.to_nat b).
  split; [unfold is_byte in Hb; lia|]. apply in_seq. unfold is_byte in Hb. lia.
Qed.

(** A property of two bytes that holds on all 65536 pairs. *)
Lemma by_all_byte_pairs (f : Z -> Z -> bool) :
  forallb (fun a => forallb (f a) bytes256) bytes256 = true ->
  forall a b, is_byte a -> is_byte b -> f a b = true.
Proof.
  intros H a b Ha Hb. rewrite forallb_forall in H.
  pose proof (H a (bytes256_complete a Ha)) as Hrow.
  rewrite forallb_forall in Hrow. exact (Hrow b (bytes256_complete b Hb)).
Qed.

(** A 16-bit field read from memory and passed through [lwip_ntohs] is
    the big-endian value of its two bytes. *)
Lemma ntohs_field (a b : Z) :
  is_byte a -> is_byte b -> lwip_ntohs (le16 [a; b]) = 256 * a + b.
Proof.
  intros Ha Hb. apply Z.eqb_eq.
  apply (by_all_byte_pairs (fun a b => lwip_ntohs (le16 [a; b]) =? 256 * a + b));
    [vm_compute; reflexivity|exact Ha|exact Hb].
Qed.

(** *** The question name *)

Lemma encode_name_cons lab labels :
  encode_name (lab :: labels) =
  (Z.of_nat (length lab) :: lab) ++ encode_name labels.
Proof. unfold encode_name. simpl. rewrite <- app_assoc. reflexivity. Qed.

Lemma encode_name_length labels :
  (length labels < length (encode_name labels))%nat.
Proof.
  induction labels as [|lab labels IH].
  - simpl. lia.
  - rewrite encode_name_cons, length_app. simpl. lia.
Qed.

Lemma rd_middle (pre post : list Z) (x : Z) :
  rd (pre ++ x :: post) (length pre) = x.
Proof. unfold rd. apply nth_middle. Qed.

(** The loop leaves the pointer just after a well-formed name. *)
Lemma skip_question_name_labels labels :
  Forall label_ok labels ->
  forall fuel pre post q_end,
    (length labels < fuel)%nat ->
    (length pre + length (encode_name labels) <= q_end)%nat ->
    skip_question_name fuel (pre ++ encode_name labels ++ post) q_end
      (length pre) =
    Some (length pre + length (encode_name labels))%nat.
Proof.
  induction 1 as [|lab labels Hlab _ IH]; intros fuel pre post q_end Hfuel Hend.
  - destruct fuel as [|fuel]; [simpl in Hfuel; lia|].
    simpl in Hend. simpl.
    replace (length pre <? q_end)%nat with true
      by (symmetry; apply Nat.ltb_lt; lia).
    change (pre ++ [0] ++ post) with (pre ++ 0 :: post).
    rewrite rd_middle. reflexivity.
  - destruct fuel as [|fuel]; [simpl in Hfuel; lia|].
    rewrite encode_name_cons in *. rewrite length_app in Hend.
    simpl in Hend, Hfuel. unfold label_ok in Hlab.
    cbn [skip_question_name].
    replace (length pre <? q_end)%nat with true
      by (symmetry; apply Nat.ltb_lt; lia).
    rewrite <- app_assoc. cbn [app]. rewrite rd_middle.
    replace (Z.of_nat (length lab) =? 0) with false
      by (symmetry; apply Z.eqb_neq; lia).
    replace (63 <? Z.of_nat (length lab)) with false
      by (symmetry; apply Z.ltb_ge; lia).
    rewrite Nat2Z.id.
    specialize (IH fuel (pre ++ Z.of_nat (length lab) :: lab) post q_end).
    rewrite length_app in IH. cbn [length] in IH.
    rewrite <- app_assoc in IH. cbn [app] in IH.
    replace (length pre + 1 + length lab)%nat
      with (length pre + S (length lab))%nat by lia.
    rewrite IH by lia. f_equal. cbn [length]. rewrite length_app. lia.
Qed.

(** *** The response *)

Lemma pbuf_copy_partial_app buf pkt n :
  length buf = n ->
  pbuf_copy_partial buf pkt n =
  take n pkt ++ drop (length (take n pkt)) buf.
Proof.
  intros Hbuf. unfold pbuf_copy_partial, store.
  rewrite <- (take_drop (length (take n pkt)) buf) at 1.
  apply list_inserts_0_r.
  rewrite !length_take. lia.
Qed.

(** A well-formed query is answered, to its source, with the same id, the
    flags 0x8480, the counts 1, 1, 0, 0, the question as received and one
    answer holding the server's address. *)
Lemma dns_response d frame id0 id1 f0 f1 q0 q1 hrest labels qtail rest
    src_addr src_port :
  length hrest = 6%nat ->
  is_byte f0 -> is_byte f1 -> is_byte q0 -> is_byte q1 ->
  Z.land (Z.shiftr (256 * f0 + f1) 15) 1 = 0 ->
  Z.land (Z.shiftr (256 * f0 + f1) 11) 15 = 0 ->
  1 <= 256 * q0 + q1 ->
  Forall label_ok labels ->
  (length (encode_name labels) <= 255)%nat ->
  length qtail = 4%nat ->
  dns_server_process d frame
    ([id0; id1; f0; f1; q0; q1] ++ hrest ++ encode_name labels ++ qtail ++ rest)
    src_addr src_port =
  Some {| dst_ip := src_addr; dst_port := src_port;
          payload :=
            [id0; id1; 132; 128; 0; 1; 0; 1; 0; 0; 0; 0] ++
            encode_name labels ++ qtail ++ answer_record (ip d) |}.
Proof.
  intros Hh Hf0 Hf1 Hq0 Hq1 Hqr Hop Hqd Hlabels Hname Hqt.
  do 6 (destruct hrest as [|? hrest]; [discriminate Hh|]).
  destruct hrest; [clear Hh|discriminate Hh].
  do 4 (destruct qtail as [|? qtail]; [discriminate Hqt|]).
  destruct qtail; [clear Hqt|discriminate Hqt].
  set (qn := encode_name labels) in *.
  set (A := [id0; id1; f0; f1; q0; q1] ++ [z; z0; z1; z2; z3; z4] ++
            qn ++ [z5; z6; z7; z8]).
  assert (HA : length A = (12 + length qn + 4)%nat).
  { unfold A. rewrite !length_app. simpl. lia. }
  unfold dns_server_process.
  replace ([id0; id1; f0; f1; q0; q1] ++ [z; z0; z1; z2; z3; z4] ++
           qn ++ [z5; z6; z7; z8] ++ rest) with (A ++ rest)
    by (unfold A; rewrite <- !app_assoc; reflexivity).
  rewrite pbuf_copy_partial_app by apply length_stack_image.
  assert (Hmin : (12 + length qn + 4 <=
                  Nat.min (length (A ++ rest)) MAX_DNS_MSG_SIZE)%nat).
  { rewrite length_app, HA. unfold MAX_DNS_MSG_SIZE. lia. }
  replace (take MAX_DNS_MSG_SIZE (A ++ rest))
    with (A ++ take (MAX_DNS_MSG_SIZE - length A) rest)
    by (rewrite take_app, (take_ge A) by (unfold MAX_DNS_MSG_SIZE; lia);
        reflexivity).
  rewrite <- app_assoc.
  match goal with
  | |- context [A ++ ?t ++ ?u] => set (T := t ++ u)
  end.
  assert (HT : (16 <= length T)%nat).
  { assert (Hlen : length (A ++ T) = MAX_DNS_MSG_SIZE).
    { unfold T. rewrite !length_app, length_drop, length_stack_image,
        !length_take. unfold MAX_DNS_MSG_SIZE. lia. }
    rewrite length_app, HA in Hlen. unfold MAX_DNS_MSG_SIZE in Hlen. lia. }
  clearbody T.
  do 16 (destruct T as [|? T]; [simpl in HT; lia|]). clear HT.
  replace (Nat.min (length (A ++ rest)) MAX_DNS_MSG_SIZE <? sizeof_dns_header)%nat
    with false by (symmetry; apply Nat.ltb_ge; unfold sizeof_dns_header; lia).
  match goal with
  | |- context [A ++ ?r] => set (R := r)
  end.
  assert (Hflags : take 2 (drop off_flags (A ++ R)) = [f0; f1]) by reflexivity.
  assert (Hcount : take 2 (drop off_question_count (A ++ R)) = [q0; q1])
    by reflexivity.
  rewrite Hflags, Hcount, !ntohs_field, Hqr, Hop by assumption.
  replace (256 * q0 + q1 <? 1) with false by (symmetry; apply Z.ltb_ge; lia).
  cbn [negb Z.eqb].
  assert (Hskip :
    skip_question_name MAX_DNS_MSG_SIZE (A ++ R)
      (Nat.min (length (A ++ rest)) MAX_DNS_MSG_SIZE) sizeof_dns_header =
    Some (12 + length qn)%nat).
  { replace (A ++ R)
      with ([id0; id1; f0; f1; q0; q1; z; z0; z1; z2; z3; z4] ++
            encode_name labels ++ ([z5; z6; z7; z8] ++ R))
      by (unfold A, qn; rewrite <- !app_assoc; reflexivity).
    apply (skip_question_name_labels labels Hlabels MAX_DNS_MSG_SIZE
             [id0; id1; f0; f1; q0; q1; z; z0; z1; z2; z3; z4]).
    - pose proof (encode_name_length labels) as Hn. unfold qn in Hname.
      unfold MAX_DNS_MSG_SIZE. lia.
    - unfold qn in Hmin. cbn [length]. lia. }
  rewrite Hskip.
  replace (255 <? 12 + length qn - sizeof_dns_header)%nat with false
    by (symmetry; apply Nat.ltb_ge; unfold sizeof_dns_header; lia).
  clear Hskip Hflags Hcount Hmin.
  remember (12 + length qn + 4)%nat as p eqn:Hp.
  unfold put. cbn [fst snd].
  rewrite <- !Nat.add_assoc. cbn [Nat.add].
  repeat first
    [ rewrite (poke_at A _ p) by (exact HA || lia)
    | rewrite (store_at A _ p) by (exact HA || lia) ].
  rewrite ?Nat.add_simpl_l, ?Nat.sub_diag.
  unfold R. clear R.
  do 2 f_equal.
  unfold A, answer_record, ip_octets. clear HA A. clearbody qn.
  cbn.
  match goal with
  | |- take _ ?l = ?r =>
      replace l with (r ++ T)
        by (cbn [app]; rewrite <- !app_assoc; reflexivity)
  end.
  apply take_app_length'.
  clear -Hp. cbn [length]. rewrite length_app. simpl length. lia.
Qed.

(** The fuel of the two bounded loops is never what stops them. *)
Lemma skip_question_name_fuel fuel k m q_end q :
  (q_end <= q + fuel)%nat ->
  skip_question_name (fuel + k) m q_end q = skip_question_name fuel m q_end q.
Proof.
  revert q. induction fuel as [|fuel IH]; intros q Hq.
  - simpl. destruct k as [|k]; [reflexivity|]. simpl.
    replace (q <? q_end)%nat with false by (symmetry; apply Nat.ltb_ge; lia).
    reflexivity.
  - simpl. destruct (q <? q_end)%nat; [|reflexivity].
    destruct (rd m q =? 0); [reflexivity|].
    destruct (63 <? rd m q); [reflexivity|]. apply IH. lia.
Qed.

(** C3. For every well-formed standard query (QR clear, opcode 0, qdcount
    at least 1, labels of 1 to 63 bytes, a name of at most 255 bytes, then
    four bytes of type and class), whatever follows it in the datagram and
    whatever the stack held, the server of the access point 192.168.4.1
    sends to the source address and port a response with the id of the
    query, the flags QR, AA and RA and no other (84 80), the counts 1, 1,
    0, 0, the question bytes as received, and one answer: C0 0C, type 1,
    class 1, TTL 60, RDLENGTH 4, RDATA 192.168.4.1. *)
Theorem dns_catch_all frame id0 id1 f0 f1 q0 q1 hrest labels qtail rest
    src_addr src_port :
  length hrest = 6%nat ->
  is_byte f0 -> is_byte f1 -> is_byte q0 -> is_byte q1 ->
  Z.land (Z.shiftr (256 * f0 + f1) 15) 1 = 0 ->
  Z.land (Z.shiftr (256 * f0 + f1) 11) 15 = 0 ->
  1 <= 256 * q0 + q1 ->
  Forall label_ok labels ->
  (length (encode_name labels) <= 255)%nat ->
  length qtail = 4%nat ->
  dns_server_process (dns_server_init (IP4_ADDR 192 168 4 1)) frame
    ([id0; id1; f0; f1; q0; q1] ++ hrest ++ encode_name labels ++ qtail ++ rest)
    src_addr src_port =
  Some {| dst_ip := src_addr; dst_port := src_port;
          payload :=
            [id0; id1; 132; 128; 0; 1; 0; 1; 0; 0; 0; 0] ++
            encode_name labels ++ qtail ++
            [192; 12; 0; 1; 0; 1; 0; 0; 0; 60; 0; 4; 192; 168; 4; 1] |}.
Proof.
  intros. rewrite dns_response by assumption. reflexivity.
Qed.

Lemma dns_catch_all_witness :
  dns_server_process (dns_server_init (IP4_ADDR 192 168 4 1)) []
    ([18; 52; 1; 0; 0; 1] ++ [0; 0; 0; 0; 0; 0] ++
     encode_name www_example_com ++ [0; 1; 0; 1] ++ [])
    [192; 168; 4; 16] 5353 =
  Some {| dst_ip := [192; 168; 4; 16]; dst_port := 5353;
          payload :=
            [18; 52; 132; 128; 0; 1; 0; 1; 0; 0; 0; 0] ++
            encode_name www_example_com ++ [0; 1; 0; 1] ++
            [192; 12; 0; 1; 0; 1; 0; 0; 0; 60; 0; 4; 192; 168; 4; 1] |}.
Proof.
  apply (dns_catch_all [] 18 52 1 0 0 1 [0; 0; 0; 0; 0; 0] www_example_com
           [0; 1; 0; 1] [] [192; 168; 4; 16] 5353).
  - reflexivity.
  - unfold is_byte. lia.
  - unfold is_byte. lia.
  - unfold is_byte. lia.
  - unfold is_byte. lia.
  - reflexivity.
  - reflexivity.
  - lia.
  - repeat constructor; unfold label_ok; simpl; lia.
  - vm_compute. lia.
  - reflexivity.
Defined.

End DnsFacts.

(** ** HTTP server and page renderer *)

Module HttpFacts.

Import Alarm Http HttpSpec.

(** *** The redirect *)

(** Scenario S5: the request for /favicon.ico is a GET whose path is not
    "/"; the bytes written in response are the redirect with LF line
    endings, not the bytes with CRLF. *)
Lemma redirect_is_not_crlf :
  parse_request (request_buffer get_favicon) = Some ("/favicon.ico", None) /\
  exists o,
    tcp_server_recv stack_ok (con_state_new gateway) alarm_initial 0
      (Some get_favicon) = Some o /\
    actions o = [TcpWrite redirect_lf; TcpRecved 29; PbufFree] /\
    redirect_lf <> redirect_crlf.
Proof.
  split; [reflexivity|].
  eexists. split; [vm_compute; reflexivity|].
  split; [reflexivity|]. vm_compute. discriminate.
Qed.

Lemma sum_Z_nonneg lens : Forall (fun len => 0 <= len) lens -> 0 <= sum_Z lens.
Proof. induction 1; simpl; lia. Qed.

Lemma acknowledged_closes env con_state a lens :
  Forall (fun len => 0 <= len) lens ->
  sent_len con_state < header_len con_state + result_len con_state ->
  acknowledged env con_state a lens = None <->
  header_len con_state + result_len con_state <=
    sent_len con_state + sum_Z lens.
Proof.
  intros Hlens. revert con_state.
  induction Hlens as [|len lens Hlen Htail IH]; intros con_state Hopen.
  - simpl. split; [discriminate|lia].
  - cbn [acknowledged sum_Z fold_right]. fold (sum_Z lens).
    unfold tcp_server_sent. cbn [sent_len header_len result_len].
    destruct (Z.leb_spec (header_len con_state + result_len con_state)
                (sent_len con_state + len)) as [Hdone|Hmore].
    + unfold closing, tcp_close_client_connection.
      pose proof (sum_Z_nonneg lens Htail).
      destruct (tcp_close_err env =? ERR_OK); cbn [con];
        (split; [intros _; lia|reflexivity]).
    + cbn [con]. rewrite IH by (cbn [sent_len header_len result_len]; lia).
      cbn [sent_len header_len result_len]. lia.
Qed.

Lemma string_take_app_length (s t : string) (k : nat) :
  string_take (String.length s + k) (s +:+ t) = s +:+ string_take k t.
Proof.
  induction s as [|c s IH]; [reflexivity|].
  change (String c (string_take (String.length s + k) (s +:+ t)) =
          String c (s +:+ string_take k t)).
  f_equal. exact IH.
Qed.

Lemma string_length_app (s t : string) :
  String.length (s +:+ t) = (String.length s + String.length t)%nat.
Proof.
  induction s as [|c s IH]; [reflexivity|].
  change (S (String.length (s +:+ t)) =
          S (String.length s + String.length t)).
  f_equal. exact IH.
Qed.

Lemma path_char_inv c :
  path_char c = true ->
  Ascii.eqb c " " = false /\ Ascii.eqb c "?" = false /\ Ascii.eqb c NUL = false.
Proof.
  unfold path_char.
  destruct (Ascii.eqb c " "), (Ascii.eqb c "?"), (Ascii.eqb c NUL);
    intros H; try discriminate H; repeat split.
Qed.

Lemma cstr_path s t :
  string_forallb path_char s = true -> cstr (s +:+ t) = s +:+ cstr t.
Proof.
  induction s as [|c s IH]; intros H; [reflexivity|].
  cbn [string_forallb] in H. apply andb_true_iff in H as [Hc Hs].
  apply path_char_inv in Hc as (_ & _ & Hc).
  change (cstr (String c (s +:+ t)) = String c (s +:+ cstr t)).
  cbn [cstr]. rewrite Hc, (IH Hs). reflexivity.
Qed.

Lemma cut_at_path s t :
  string_forallb path_char s = true -> cut_at (s +:+ String " " t) " " = s.
Proof.
  induction s as [|c s IH]; intros H; [reflexivity|].
  cbn [string_forallb] in H. apply andb_true_iff in H as [Hc Hs].
  apply path_char_inv in Hc as (Hc & _ & _).
  change (cut_at (String c (s +:+ String " " t)) " " = String c s).
  cbn [cut_at]. rewrite Hc, (IH Hs). reflexivity.
Qed.

Lemma strchr_path s :
  string_forallb path_char s = true -> strchr s "?" = None.
Proof.
  induction s as [|c s IH]; intros H; [reflexivity|].
  cbn [string_forallb] in H. apply andb_true_iff in H as [Hc Hs].
  apply path_char_inv in Hc as (_ & Hc & _).
  cbn [strchr]. rewrite Hc. exact (IH Hs).
Qed.

Lemma skip_blanks_path s t : plain_path s -> skip_blanks (s +:+ t) = s +:+ t.
Proof.
  intros [Hne H]. destruct s as [|c s]; [contradiction|].
  cbn [string_forallb] in H. apply andb_true_iff in H as [Hc _].
  apply path_char_inv in Hc as (Hc & _ & _).
  change (skip_blanks (String c (s +:+ t)) = String c (s +:+ t)).
  destruct c as [[] [] [] [] [] [] [] []]; try reflexivity; discriminate Hc.
Qed.

(** Every request line [GET path rest] whose target is plain and fits the
    127 bytes kept is parsed as that path, without parameters. *)
Lemma parse_request_path path rest :
  plain_path path -> (String.length path <= 122)%nat ->
  parse_request (request_buffer (get_path path rest)) = Some (path, None).
Proof.
  intros Hpath Hlen. unfold request_buffer, get_path.
  rewrite !string_length_app.
  replace (Nat.min _ (sizeof_headers - 1))
    with (String.length "GET " + (String.length path + (String.length " " +
            Nat.min (String.length rest) (122 - String.length path))))%nat
    by (simpl; lia).
  rewrite !string_take_app_length.
  set (z := string_take _ rest).
  change (parse_request
            (String "G" (String "E" (String "T" (String " "
               (cstr (path +:+ " " +:+ z)))))) = Some (path, None)).
  rewrite (cstr_path _ _ (proj2 Hpath)).
  change (cstr (" " +:+ z)) with (String " " (cstr z)).
  unfold parse_request.
  change (String.prefix HTTP_GET _) with true. cbv iota.
  change (string_drop _ _) with (String " " (path +:+ String " " (cstr z))).
  change (skip_blanks (String " " ?x)) with (skip_blanks x).
  rewrite (skip_blanks_path _ _ Hpath), (cut_at_path _ _ (proj2 Hpath)).
  rewrite (strchr_path _ (proj2 Hpath)). reflexivity.
Qed.

(** C4 (as the code has it). For every received GET whose request path is
    not "/", with the gateway 192.168.4.1 and a stack that accepts the
    write, the server writes exactly the bytes
    "HTTP/1.1 302 Redirect\nLocation: http://192.168.4.1/\n\n" (LF line
    endings, no body), leaves the alarm alone, and [tcp_server_sent] closes
    the connection once the acknowledged lengths add up to the length of
    those bytes, and not before. *)
Theorem redirect_response env con_state a now_us data path params :
  gw con_state = gateway ->
  (0 < String.length data)%nat ->
  parse_request (request_buffer data) = Some (path, params) ->
  path <> "/" ->
  write_headers_err env = ERR_OK ->
  exists con_state',
    tcp_server_recv env con_state a now_us (Some data) =
      Some {| con := Some con_state'; alarm := a; effects := [];
              actions := [TcpWrite redirect_lf;
                          TcpRecved (String.length data); PbufFree];
              ret := ERR_OK |} /\
    forall env' lens,
      Forall (fun len => 0 <= len) lens ->
      acknowledged env' con_state' a lens = None <->
      Z.of_nat (String.length redirect_lf) <= sum_Z lens.
Proof.
  intros Hgw Hlen Hparse Hpath Hwrite.
  unfold tcp_server_recv.
  replace (0 <? String.length data)%nat with true
    by (symmetry; apply Nat.ltb_lt; exact Hlen).
  fold (request_buffer data). rewrite Hparse.
  replace (String.eqb path "/") with false
    by (symmetry; apply String.eqb_neq; exact Hpath).
  rewrite Hgw.
  change (snprintf sizeof_headers
            (HTTP_RESPONSE_REDIRECT_TO_ROOT (ipaddr_ntoa gateway)))
    with (redirect_lf, 53).
  cbn [Z.leb Z.of_nat Nat.sub sizeof_headers]. rewrite Hwrite.
  eexists. split; [reflexivity|].
  intros env' lens Hlens.
  rewrite acknowledged_closes by (exact Hlens || (cbn; lia)).
  cbn. reflexivity.
Qed.

Lemma redirect_response_witness :
  exists con_state',
    tcp_server_recv stack_ok (con_state_new gateway) alarm_initial 0
      (Some get_favicon) =
      Some {| con := Some con_state'; alarm := alarm_initial; effects := [];
              actions := [TcpWrite redirect_lf;
                          TcpRecved (String.length get_favicon); PbufFree];
              ret := ERR_OK |} /\
    forall env' lens,
      Forall (fun len => 0 <= len) lens ->
      acknowledged env' con_state' alarm_initial lens = None <->
      Z.of_nat (String.length redirect_lf) <= sum_Z lens.
Proof.
  apply (redirect_response stack_ok (con_state_new gateway) alarm_initial 0
           get_favicon "/favicon.ico" None).
  - reflexivity.
  - vm_compute. lia.
  - reflexivity.
  - discriminate.
  - reflexivity.
Defined.

(** *** The command in the query string *)

Lemma match_literal_Some lit s r :
  match_literal lit s = Some r <-> s = lit +:+ r.
Proof.
  revert s. induction lit as [|c lit IH]; intros s; simpl.
  - split; [intros [= ->]; reflexivity|intros ->; reflexivity].
  - destruct s as [|x s].
    + split; discriminate.
    + destruct (Ascii.eqb_spec x c) as [->|Hne].
      * rewrite IH. split; [intros ->; reflexivity|intros [= ->]; reflexivity].
      * split; [discriminate|]. intros [= -> _]. contradiction Hne. reflexivity.
Qed.

Lemma skip_space_blank ws s : blank ws -> skip_space (ws +:+ s) = skip_space s.
Proof.
  unfold blank. induction ws as [|c ws IH]; simpl; [reflexivity|].
  intros H. apply andb_true_iff in H as [Hc Hws]. rewrite Hc. exact (IH Hws).
Qed.

Lemma skip_space_word w rest : word w -> skip_space (w +:+ rest) = w +:+ rest.
Proof.
  intros [Hne Hw]. destruct w as [|c w]; [contradiction Hne; reflexivity|].
  simpl in *. apply andb_true_iff in Hw as [Hc _].
  apply negb_true_iff in Hc. rewrite Hc. reflexivity.
Qed.

Lemma scan_word_app w rest :
  string_forallb (fun c => negb (isspace c)) w = true -> ends_word rest ->
  scan_word (w +:+ rest) = w.
Proof.
  intros Hw Hrest. induction w as [|c w IH]; simpl in *.
  - destruct rest as [|x rest]; [reflexivity|]. simpl in Hrest. simpl.
    rewrite Hrest. reflexivity.
  - apply andb_true_iff in Hw as [Hc Hw]. apply negb_true_iff in Hc.
    rewrite Hc, (IH Hw). reflexivity.
Qed.

Lemma skip_space_split s :
  exists ws, blank ws /\ s = ws +:+ skip_space s /\
    match skip_space s with
    | EmptyString => True
    | String c _ => isspace c = false
    end.
Proof.
  induction s as [|c s (ws & Hws & Hs & Hhead)]; simpl.
  - exists EmptyString. repeat split.
  - destruct (isspace c) eqn:Hc.
    + exists (String c ws). split; [|split].
      * unfold blank. simpl. rewrite Hc. exact Hws.
      * change (String c s = String c (ws +:+ skip_space s)).
        f_equal. exact Hs.
      * exact Hhead.
    + exists EmptyString. split; [reflexivity|]. split; [reflexivity|exact Hc].
Qed.

Lemma scan_word_split s :
  exists rest, s = scan_word s +:+ rest /\
    string_forallb (fun c => negb (isspace c)) (scan_word s) = true /\
    ends_word rest.
Proof.
  induction s as [|c s (rest & Hs & Hw & Hrest)]; simpl.
  - exists EmptyString. repeat split.
  - destruct (isspace c) eqn:Hc.
    + exists (String c s). split; [reflexivity|]. split; [reflexivity|exact Hc].
    + exists rest. split; [|split; [|exact Hrest]].
      { change (String c s = String c (scan_word s +:+ rest)).
        f_equal. exact Hs. }
      simpl. rewrite Hc. exact Hw.
Qed.

(** [sscanf] returns 1, storing [w], exactly on the queries that start
    with "alarm=" followed by the word [w]. *)
Lemma sscanf_alarm_spec q w : sscanf_alarm q = Some w <-> command_word q w.
Proof.
  unfold sscanf_alarm, command_word. split.
  - destruct (match_literal "alarm=" q) as [r|] eqn:Hlit; [|discriminate].
    apply match_literal_Some in Hlit. subst q.
    destruct (skip_space_split r) as (ws & Hws & Hr & Hhead).
    destruct (skip_space r) as [|c r'] eqn:Hskip; [discriminate|].
    intros [= <-].
    destruct (scan_word_split (String c r')) as (rest & Hsplit & Hw & Hrest).
    exists ws, rest. split; [|split; [exact Hws|split; [|exact Hrest]]].
    + change (if isspace c then EmptyString else String c (scan_word r'))
        with (scan_word (String c r')).
      rewrite <- Hsplit. rewrite <- Hr. reflexivity.
    + split; [|exact Hw]. simpl. rewrite Hhead. discriminate.
  - intros (ws & rest & -> & Hws & Hw & Hrest).
    rewrite (proj2 (match_literal_Some "alarm=" _ (ws +:+ w +:+ rest)) eq_refl).
    rewrite skip_space_blank by exact Hws.
    rewrite skip_space_word by exact Hw.
    destruct Hw as [Hne Hw].
    destruct (w +:+ rest) as [|c s] eqn:Happ.
    + destruct w; [contradiction Hne; reflexivity|discriminate Happ].
    + rewrite <- Happ. rewrite scan_word_app by assumption. reflexivity.
Qed.

(** "x=1&alarm=on" contains "alarm=on" and leaves an inactive alarm
    inactive: the format is matched from the start of the query. *)
Lemma substring_rule_fails : ~ substring_rule.
Proof.
  intros H.
  destruct (http_generate_page_content 0 (Some "x=1&alarm=on") sizeof_result
              alarm_initial) as [[[[a' effs] body] n]|] eqn:Hgen;
    [|vm_compute in Hgen; discriminate].
  assert (Hact : alarm_control_is_active a' = true).
  { apply (H 0 "x=1&alarm=on" alarm_initial a' effs body n); [|exact Hgen].
    exists "x=1&", EmptyString. reflexivity. }
  vm_compute in Hgen. injection Hgen as <- _ _ _. discriminate Hact.
Qed.

(** C5 (as the code has it). For every query string passed to the page
    renderer: if it starts with "alarm=" and the word that follows is
    exactly "on", the alarm is requested active; if that word is exactly
    "off", inactive; for an absent query, a query without such a word, and
    any other word of at most three characters, the alarm is left as it is
    and nothing is done to the hardware. *)
Theorem alarm_command_rule now_us params c a :
  query_command params c ->
  (forall w, c = Some w -> (String.length w <= 3)%nat) ->
  exists a' effs body n,
    http_generate_page_content now_us params sizeof_result a =
      Some (a', effs, body, n) /\
    (c = Some "on" -> (a', effs) = alarm_control_set_active now_us true a) /\
    (c = Some "off" -> (a', effs) = alarm_control_set_active now_us false a) /\
    (c <> Some "on" -> c <> Some "off" -> a' = a /\ effs = []).
Proof.
  intros Hc Hshort. unfold http_generate_page_content.
  destruct Hc as [|q Hnone|q w Hw].
  - eexists _, _, _, _. split; [reflexivity|].
    split; [discriminate|]. split; [discriminate|]. intros _ _. split; reflexivity.
  - destruct (sscanf_alarm q) as [w|] eqn:Hscan.
    { apply sscanf_alarm_spec in Hscan. contradiction (Hnone w Hscan). }
    eexists _, _, _, _. split; [reflexivity|].
    split; [discriminate|]. split; [discriminate|]. intros _ _. split; reflexivity.
  - rewrite (proj2 (sscanf_alarm_spec q w) Hw).
    pose proof (Hshort w eq_refl) as Hlen.
    replace (alarm_command_size <? String.length w + 1)%nat with false
      by (symmetry; apply Nat.ltb_ge; unfold alarm_command_size; lia).
    destruct (String.eqb_spec w "on") as [->|Hon];
      [|destruct (String.eqb_spec w "off") as [->|Hoff]].
    + unfold alarm_control_is_active, alarm_control_set_active.
      destruct (s_alarm_active a) eqn:Hact; cbn [negb Bool.eqb];
        (eexists _, _, _, _; split; [reflexivity|]);
        (split; [intros _; reflexivity|]);
        (split; [discriminate|]); intros Hne; contradiction Hne; reflexivity.
    + unfold alarm_control_is_active, alarm_control_set_active.
      destruct (s_alarm_active a) eqn:Hact; cbn [negb Bool.eqb];
        (eexists _, _, _, _; split; [reflexivity|]);
        (split; [discriminate|]);
        (split; [intros _; reflexivity|]);
        intros _ Hne; contradiction Hne; reflexivity.
    + eexists _, _, _, _. split; [reflexivity|].
      split; [intros [= ->]; contradiction Hon; reflexivity|].
      split; [intros [= ->]; contradiction Hoff; reflexivity|].
      intros _ _. split; reflexivity.
Qed.

Lemma alarm_command_rule_witness :
  exists a' effs body n,
    http_generate_page_content 7 (Some "alarm=on") sizeof_result alarm_initial =
      Some (a', effs, body, n) /\
    (Some "on" = Some "on" ->
       (a', effs) = alarm_control_set_active 7 true alarm_initial) /\
    (Some "on" = Some "off" ->
       (a', effs) = alarm_control_set_active 7 false alarm_initial) /\
    (Some "on" <> Some "on" -> Some "on" <> Some "off" ->
       a' = alarm_initial /\ effs = []).
Proof.
  apply (alarm_command_rule 7 (Some "alarm=on") (Some "on") alarm_initial).
  - apply query_word. exists EmptyString, EmptyString.
    split; [reflexivity|]. split; [reflexivity|].
    split; [split; [discriminate|reflexivity]|exact I].
  - intros w [= <-]. simpl. lia.
Defined.

(** *** Switching the alarm on twice *)

Lemma parse_get_alarm_on rest :
  parse_request (request_buffer (get_alarm_on rest)) =
  Some ("/", Some "alarm=on").
Proof.
  unfold request_buffer, get_alarm_on.
  rewrite string_length_app.
  replace (Nat.min (String.length "GET /?alarm=on " + String.length rest)
             (sizeof_headers - 1))
    with (String.length "GET /?alarm=on " + Nat.min (String.length rest) 112)%nat
    by (simpl; lia).
  rewrite string_take_app_length. reflexivity.
Qed.

Lemma render_alarm_on now_us a :
  http_generate_page_content now_us (Some "alarm=on") sizeof_result a =
  Some ((alarm_control_set_active now_us true a).1,
        (alarm_control_set_active now_us true a).2, page_on, 1025).
Proof. destruct a as [[] t l]; reflexivity. Qed.

Lemma recv_alarm_on env con_state a now_us rest :
  write_headers_err env = ERR_OK -> write_body_err env = ERR_OK ->
  exists con_state',
    tcp_server_recv env con_state a now_us (Some (get_alarm_on rest)) =
    Some {| con := Some con_state';
            alarm := (alarm_control_set_active now_us true a).1;
            effects := (alarm_control_set_active now_us true a).2;
            actions := [TcpWrite (header_200 1025); TcpWrite page_on;
                        TcpRecved (String.length (get_alarm_on rest));
                        PbufFree];
            ret := ERR_OK |}.
Proof.
  intros Hw1 Hw2. unfold tcp_server_recv.
  replace (0 <? String.length (get_alarm_on rest))%nat with true
    by reflexivity.
  fold (request_buffer (get_alarm_on rest)).
  rewrite parse_get_alarm_on.
  change (String.eqb "/" "/") with true. cbv iota.
  rewrite render_alarm_on.
  change (Z.of_nat (sizeof_result - 1) <=? 1025) with false. cbv iota.
  change (snprintf sizeof_headers (HTTP_RESPONSE_HEADERS 200 (Z.to_nat 1025)))
    with (header_200 1025, 95).
  change (Z.of_nat (sizeof_headers - 1) <=? 95) with false. cbv iota.
  rewrite Hw1, Hw2.
  eexists. reflexivity.
Qed.

Lemma set_active_is_active now_us a :
  alarm_control_is_active (alarm_control_set_active now_us true a).1 = true.
Proof. destruct a as [[] t l]; reflexivity. Qed.

Lemma set_active_again now_us a :
  alarm_control_is_active a = true ->
  alarm_control_set_active now_us true a = (a, []).
Proof. destruct a as [[] t l]; [reflexivity|discriminate]. Qed.

Lemma supervisor_ticks_active ticks a :
  alarm_control_is_active (supervisor_ticks ticks a) =
  alarm_control_is_active a.
Proof.
  revert a. induction ticks as [|t ticks IH]; intros a; [reflexivity|].
  simpl. rewrite IH. unfold alarm_control_process, alarm_control_is_active.
  destruct (s_alarm_active a) eqn:Ha; [|exact Ha].
  destruct (_ <=? _); [reflexivity|exact Ha].
Qed.

(** C6. GET /?alarm=on twice in a row, from any alarm state, on any two
    connections, with the supervisor loop running in between and a stack
    that accepts the writes: the alarm is active after the first request,
    stays active in between and after the second; the second request
    leaves the alarm module state as it found it and does nothing to the
    display, the LEDs or the buzzer; and both responses carry the same
    body, byte for byte. *)
Theorem alarm_on_twice env1 env2 con1 con2 a now1 now2 rest1 rest2 ticks :
  write_headers_err env1 = ERR_OK -> write_body_err env1 = ERR_OK ->
  write_headers_err env2 = ERR_OK -> write_body_err env2 = ERR_OK ->
  exists o1 o2 hd body,
    tcp_server_recv env1 con1 a now1 (Some (get_alarm_on rest1)) = Some o1 /\
    tcp_server_recv env2 con2 (supervisor_ticks ticks (alarm o1)) now2
      (Some (get_alarm_on rest2)) = Some o2 /\
    alarm_control_is_active (alarm o1) = true /\
    alarm_control_is_active (supervisor_ticks ticks (alarm o1)) = true /\
    alarm o2 = supervisor_ticks ticks (alarm o1) /\
    effects o2 = [] /\
    actions o1 = [TcpWrite hd; TcpWrite body;
                  TcpRecved (String.length (get_alarm_on rest1)); PbufFree] /\
    actions o2 = [TcpWrite hd; TcpWrite body;
                  TcpRecved (String.length (get_alarm_on rest2)); PbufFree].
Proof.
  intros H1 H2 H3 H4.
  destruct (recv_alarm_on env1 con1 a now1 rest1 H1 H2) as (c1 & Hr1).
  rewrite Hr1. cbn [alarm].
  set (a1 := (alarm_control_set_active now1 true a).1).
  assert (Ha1 : alarm_control_is_active a1 = true)
    by apply set_active_is_active.
  assert (Hmid : alarm_control_is_active (supervisor_ticks ticks a1) = true)
    by (rewrite supervisor_ticks_active; exact Ha1).
  destruct (recv_alarm_on env2 con2 (supervisor_ticks ticks a1) now2 rest2
              H3 H4) as (c2 & Hr2).
  rewrite (set_active_again _ _ Hmid) in Hr2. cbn [fst snd] in Hr2.
  eexists _, _, _, _. split; [reflexivity|]. split; [exact Hr2|].
  cbn [alarm effects actions]. repeat split; assumption.
Qed.

Lemma alarm_on_twice_witness :
  exists o1 o2 hd body,
    tcp_server_recv stack_ok (con_state_new gateway) alarm_initial 1000
      (Some (get_alarm_on "HTTP/1.1")) = Some o1 /\
    tcp_server_recv stack_ok (con_state_new gateway)
      (supervisor_ticks [600000; 1200000] (alarm o1)) 2000000
      (Some (get_alarm_on "HTTP/1.1")) = Some o2 /\
    alarm_control_is_active (alarm o1) = true /\
    alarm_control_is_active (supervisor_ticks [600000; 1200000] (alarm o1)) =
      true /\
    alarm o2 = supervisor_ticks [600000; 1200000] (alarm o1) /\
    effects o2 = [] /\
    actions o1 = [TcpWrite hd; TcpWrite body;
                  TcpRecved (String.length (get_alarm_on "HTTP/1.1"));
                  PbufFree] /\
    actions o2 = [TcpWrite hd; TcpWrite body;
                  TcpRecved (String.length (get_alarm_on "HTTP/1.1"));
                  PbufFree].
Proof.
  apply (alarm_on_twice stack_ok stack_ok (con_state_new gateway)
           (con_state_new gateway) alarm_initial 1000 2000000
           "HTTP/1.1" "HTTP/1.1" [600000; 1200000]); reflexivity.
Defined.

End HttpFacts.

(** ** Supervisor *)

Module SupervisorFacts.

Import Supervisor SupervisorSpec.

(** The callback ignores q: the flag stays clear and the loop goes on. *)
Lemma four_keys_rule_fails : ~ four_keys_rule.
Proof.
  intros H.
  destruct (H {| complete := false; gw := Http.gateway |} (key "q"))
    as (state' & Hkey & Hdone); [left; reflexivity|].
  vm_compute in Hkey. injection Hkey as <-. discriminate Hdone.
Qed.

(** C9 (as the code has it). While the loop runs (the flag is clear), a
    character read from the console sets the shutdown flag, which ends the
    loop, exactly when it is d or D. *)
Theorem key_pressed_shutdown state k :
  complete state = false ->
  exists state',
    key_pressed_func (Some state) k = Some state' /\
    (complete state' = true <-> k = key "d" \/ k = key "D") /\
    main_loop_continues (Some state') = negb (complete state').
Proof.
  intros Hrun. unfold key_pressed_func. rewrite Hrun. cbn [negb andb].
  rewrite andb_true_r.
  destruct (k =? Z.of_nat (nat_of_ascii "d")) eqn:Hd.
  - eexists. split; [reflexivity|]. split; [|reflexivity].
    apply Z.eqb_eq in Hd. split; [intros _; left; exact Hd|reflexivity].
  - destruct (k =? Z.of_nat (nat_of_ascii "D")) eqn:HD.
    + eexists. split; [reflexivity|]. split; [|reflexivity].
      apply Z.eqb_eq in HD. split; [intros _; right; exact HD|reflexivity].
    + eexists. split; [reflexivity|]. split; [|reflexivity].
      apply Z.eqb_neq in Hd, HD. rewrite Hrun.
      split; [discriminate|]. intros [E|E]; contradiction.
Qed.

Lemma key_pressed_shutdown_witness :
  exists state',
    key_pressed_func (Some {| complete := false; gw := Http.gateway |})
      (key "D") = Some state' /\
    (complete state' = true <-> key "D" = key "d" \/ key "D" = key "D") /\
    main_loop_continues (Some state') = negb (complete state').
Proof.
  apply (key_pressed_shutdown {| complete := false; gw := Http.gateway |}
           (key "D")).
  reflexivity.
Defined.

End SupervisorFacts.
